(** * chat-api: the real-time layer (src/services/socketService.js) and the
      Group model (models/Group.js)

    The socket service keeps one process-wide [Map] from user id to socket id,
    lets socket.io keep the room subscriptions of every live socket, and
    talks to three mongoose collections (users, groups, messages).  Each
    handler is embedded as a computation over that state which also records,
    in order, the store writes and the emissions it performs, each with the
    state it was performed in.  A handler run is one step: other events do
    not interleave at its [await] points, and whether an awaited store call
    is fulfilled is an input of the step.  Two places where the source lets
    something else happen in between are modelled apart: [joinUserGroups],
    which the connection callback starts without awaiting it, resumes as an
    input of its own, and the join handler can be resumed from the point
    where its group lookup has settled. *)

From stdpp Require Import gmap strings list fin_maps.

Local Open Scope string_scope.
Local Open Scope list_scope.

(** ** Documents *)

(** The [User] document, restricted to the fields the socket service reads. *)
Module User.
Record t := mk {
  _id : string;
  name : string;
  firstName : string;
  email : string
}.
End User.

(** models/Group.js *)
Module Group.
Record t := mk {
  name : string;
  description : option string;
  creator : string;
  members : list string;
  createdAt : nat
}.

(** [ObjectId.equals] against the hexadecimal string of a user id. *)
Definition equals (member userId : string) : bool := String.eqb member userId.

(** [this.members.some(member => member.equals(userId))] *)
Definition isMember (this : t) (userId : string) : bool :=
  existsb (fun member => equals member userId) (members this).

Definition set_members (this : t) (ms : list string) : t :=
  {| name := name this; description := description this;
     creator := creator this; members := ms; createdAt := createdAt this |}.

(** The document after [addMember]; the [save] that follows is a store
    call and is sequenced by the caller. *)
Definition addMember (this : t) (userId : string) : t :=
  if negb (isMember this userId)
  then set_members this (members this ++ [userId])
  else this.

(** The document after [removeMember] (before its [save]). *)
Definition removeMember (this : t) (userId : string) : t :=
  set_members this (filter (fun member => negb (equals member userId)) (members this)).
End Group.

(** The [Message] document as the socket service builds it: exactly the
    fields passed to [new Message], and the [_id] mongoose gives it. *)
Module Message.
Record t := mk {
  _id : nat;
  sender : string;
  recipient : option string;
  group : option string;
  content : string
}.
End Message.

(** ** Events *)

(** The body of an inbound event: a JSON object whose fields may be absent.
    Identifiers and contents are strings, the typing flag a boolean. *)
Record Data := mkData {
  recipientId : option string;
  groupId : option string;
  content : option string;
  isTyping : option bool
}.

(** JavaScript truthiness of a string-valued field: [undefined] and the
    empty string are falsy. *)
Definition truthy (v : option string) : bool :=
  match v with
  | Some s => negb (String.eqb s "")
  | None => false
  end.

Definition str (v : option string) : string := default "" v.

(** Outbound events, named after the socket.io event they are sent as. *)
Inductive Event :=
| Error (message : string)
| UserStatus (userId status : string)
| DirectMessage (message : Message.t)
| GroupMessage (message : Message.t)
| MessageSent (messageId : nat)
| GroupUpdate (type groupId userId : string)
| GroupJoined (groupId name : string)
| GroupLeft (groupId name : string)
| GroupDeleted (groupId : string)
| Typing (userId : string) (isTyping : option bool)
| GroupTyping (userId groupId userName : string) (isTyping : option bool).

(** Where an emission is addressed. *)
Inductive Target :=
| ToSocket (socket : string)               (* socket.emit *)
| ToAll                                    (* io.emit *)
| ToRoom (room : string)                   (* io.to(room).emit *)
| ToRoomExcept (room socket : string).     (* socket.to(room).emit *)

(** What a handler does to the outside, in program order. *)
Inductive Action :=
| Emit (target : Target) (event : Event)
| SaveMessage (message : Message.t)
| SaveGroup (groupId : string) (group : Group.t)
| DeleteGroup (groupId : string).

(** ** State *)

(** A live socket: the user bound by the authentication middleware and the
    rooms it has joined. *)
Record Socket := mkSocket {
  user : User.t;
  rooms : gset string
}.

Record State := mkState {
  userSockets : gmap string string;   (* const userSockets = new Map() *)
  sockets : gmap string Socket;       (* live sockets of the io server *)
  groups : gmap string Group.t;       (* Group collection, by _id *)
  messages : list Message.t;          (* Message collection *)
  users : gmap string User.t          (* User collection, by _id *)
}.

Definition set_userSockets (f : gmap string string → gmap string string) (st : State) : State :=
  mkState (f (userSockets st)) (sockets st) (groups st) (messages st) (users st).
Definition set_sockets (f : gmap string Socket → gmap string Socket) (st : State) : State :=
  mkState (userSockets st) (f (sockets st)) (groups st) (messages st) (users st).
Definition set_groups (f : gmap string Group.t → gmap string Group.t) (st : State) : State :=
  mkState (userSockets st) (sockets st) (f (groups st)) (messages st) (users st).
Definition set_messages (f : list Message.t → list Message.t) (st : State) : State :=
  mkState (userSockets st) (sockets st) (groups st) (f (messages st)) (users st).

(** The sockets an emission reaches, recomputed from the current rooms. *)
Definition in_room (room : string) (st : State) : gset string :=
  dom (filter (fun kv => room ∈ rooms kv.2) (sockets st)).

Definition recipients (st : State) (t : Target) : gset string :=
  match t with
  | ToSocket s => if decide (s ∈ dom (sockets st)) then {[s]} else ∅
  | ToAll => dom (sockets st)
  | ToRoom room => in_room room st
  | ToRoomExcept room s => in_room room st ∖ {[s]}
  end.

(** The registry's view of presence: [userSockets.has(id)]. *)
Definition isOnline (st : State) (userId : string) : bool :=
  bool_decide (is_Some (userSockets st !! userId)).

(** The live connections bound to an identity. *)
Definition connectionsFor (st : State) (userId : string) : gset string :=
  dom (filter (fun kv => User._id (user kv.2) = userId) (sockets st)).

(** ** Handler computations *)

(** A handler either runs to its end or throws; either way it leaves a
    state and the actions it performed up to that point, each logged with
    the state at that moment. *)
Inductive Res (A : Type) :=
| Done (a : A)
| Thrown.
Arguments Done {A} a.
Arguments Thrown {A}.

Definition M (A : Type) : Type := State → Res A * State * list (State * Action).

Definition ret {A} (a : A) : M A := fun st => (Done a, st, []).
Definition throw {A} : M A := fun st => (Thrown, st, []).
Definition bind {A B} (m : M A) (k : A → M B) : M B :=
  fun st =>
    match m st with
    | (Done a, st1, tr1) =>
        match k a st1 with
        | (r, st2, tr2) => (r, st2, tr1 ++ tr2)
        end
    | (Thrown, st1, tr1) => (Thrown, st1, tr1)
    end.

#[global] Instance M_ret : MRet M := @ret.
#[global] Instance M_bind : MBind M := fun A B k m => bind m k.

(** [try { body } catch (error) { handler }] *)
Definition try_catch (body handler : M unit) : M unit :=
  fun st =>
    match body st with
    | (Done a, st1, tr1) => (Done a, st1, tr1)
    | (Thrown, st1, tr1) =>
        match handler st1 with
        | (r, st2, tr2) => (r, st2, tr1 ++ tr2)
        end
    end.

Definition gets {A} (f : State → A) : M A := fun st => (Done (f st), st, []).
Definition modify (f : State → State) : M unit := fun st => (Done tt, f st, []).
Definition act (a : Action) : M unit := fun st => (Done tt, st, [(st, a)]).
Definition emit (t : Target) (e : Event) : M unit := act (Emit t e).
Definition when (b : bool) (m : M unit) : M unit := if b then m else ret tt.

(** An awaited store call whose promise is fulfilled ([ok]) or rejected. *)
Definition await {A} (ok : bool) (m : M A) : M A := if ok then m else throw.

(** Whether each store call awaited by one handler run is fulfilled. *)
Record Outcomes := mkOutcomes {
  find_ok : bool;       (* Group.findById *)
  save_ok : bool;       (* message.save / group.save *)
  populate_ok : bool;   (* message.populate *)
  delete_ok : bool      (* Group.findByIdAndDelete *)
}.

Definition all_ok : Outcomes := mkOutcomes true true true true.

(** *** Store calls *)

Definition Group_findById (o : Outcomes) (groupId : string) : M (option Group.t) :=
  await (find_ok o) (gets (fun st => groups st !! groupId)).

(** [doc.save()] of a group document. *)
Definition Group_save (o : Outcomes) (groupId : string) (g : Group.t) : M unit :=
  await (save_ok o)
    (modify (set_groups (insert groupId g)) ;; act (SaveGroup groupId g)).

Definition Group_findByIdAndDelete (o : Outcomes) (groupId : string) : M unit :=
  await (delete_ok o)
    (modify (set_groups (delete groupId)) ;; act (DeleteGroup groupId)).

(** [new Message({...})]: the document gets its [_id] at construction. *)
Definition new_Message (sender : string) (recipient group : option string)
    (content : string) : M Message.t :=
  gets (fun st => Message.mk (length (messages st)) sender recipient group content).

Definition Message_save (o : Outcomes) (m : Message.t) : M unit :=
  await (save_ok o)
    (modify (set_messages (fun ms => ms ++ [m])) ;; act (SaveMessage m)).

(** [message.populate(...)] only decorates the document that is sent; it can
    still reject. *)
Definition Message_populate (o : Outcomes) : M unit := await (populate_ok o) (ret tt).

(** *** Rooms *)

Definition add_room (room : string) (sock : Socket) : Socket :=
  mkSocket (user sock) ({[room]} ∪ rooms sock).
Definition del_room (room : string) (sock : Socket) : Socket :=
  mkSocket (user sock) (rooms sock ∖ {[room]}).

Definition socket_join (s room : string) : M unit :=
  modify (set_sockets (alter (add_room room) s)).
Definition socket_leave (s room : string) : M unit :=
  modify (set_sockets (alter (del_room room) s)).

Definition user_room (userId : string) : string := String.append "user:" userId.
Definition group_room (groupId : string) : string := String.append "group:" groupId.

(** What [Group.find({ members: userId })] answers on the collection as it
    is in [st]: the ids of the groups that list the user. *)
Definition Group_find (st : State) (userId : string) : list string :=
  map fst (filter (fun kv => Group.isMember kv.2 userId = true) (map_to_list (groups st))).

(** [for (const group of groups) socket.join(`group:${group._id}`)] *)
Fixpoint join_each (s : string) (groups : list string) : M unit :=
  match groups with
  | [] => ret tt
  | gid :: groups => socket_join s (group_room gid) ;; join_each s groups
  end.

(** [joinUserGroups(socket)] from the point where its [await Group.find]
    has settled: [found] is what the query resolved with, [None] if it was
    rejected (logged, nothing joined).  The connection callback does not
    await this function, so it resumes after the callback has returned. *)
Definition joinUserGroups (s : string) (found : option (list string)) : M unit :=
  try_catch
    (groups ← (match found with Some groups => ret groups | None => throw end);
     join_each s groups)
    (ret tt).

(** [const { ... } = data]: destructuring throws a TypeError when the event
    was sent without a payload ([data] is undefined or null). *)
Definition destructure (payload : option Data) : M Data :=
  match payload with
  | Some data => ret data
  | None => throw
  end.

(** *** The handlers registered in [io.on('connection', ...)] *)

Section Handlers.
(** The socket the handlers are registered on, and [socket.user]. *)
Variable s : string.
Variable me : User.t.
Let userId : string := User._id me.

(** Body of the connection callback, before the handlers are registered.
    The call [joinUserGroups(socket)] only issues the group query; nothing
    of it is visible before the callback returns. *)
Definition connection : M unit :=
  modify (set_userSockets (insert userId s)) ;;
  socket_join s (user_room userId) ;;
  emit ToAll (UserStatus userId "online").

Definition direct_message (o : Outcomes) (payload : option Data) : M unit :=
  try_catch
    (data ← destructure payload;
     if negb (truthy (recipientId data)) || negb (truthy (content data)) then
       emit (ToSocket s) (Error "Recipient ID and content are required")
     else
       let rid := str (recipientId data) in
       message ← new_Message userId (Some rid) None (str (content data));
       Message_save o message ;;
       Message_populate o ;;
       online ← gets (fun st => isOnline st rid);
       when online (emit (ToRoom (user_room rid)) (DirectMessage message)) ;;
       emit (ToSocket s) (MessageSent (Message._id message)))
    (emit (ToSocket s) (Error "Failed to send message")).

Definition group_message (o : Outcomes) (payload : option Data) : M unit :=
  try_catch
    (data ← destructure payload;
     if negb (truthy (groupId data)) || negb (truthy (content data)) then
       emit (ToSocket s) (Error "Group ID and content are required")
     else
       let gid := str (groupId data) in
       group ← Group_findById o gid;
       match group with
       | None => emit (ToSocket s) (Error "Group not found")
       | Some group =>
           if negb (Group.isMember group userId) then
             emit (ToSocket s) (Error "You are not a member of this group")
           else
             message ← new_Message userId None (Some gid) (str (content data));
             Message_save o message ;;
             Message_populate o ;;
             emit (ToRoom (group_room gid)) (GroupMessage message) ;;
             emit (ToSocket s) (MessageSent (Message._id message))
       end)
    (emit (ToSocket s) (Error "Failed to send group message")).

(** The join handler from the point where [await Group.findById(groupId)]
    has resolved with [group], up to the end of its [try] block. *)
Definition join_group_found (o : Outcomes) (gid : string) (group : option Group.t) : M unit :=
  match group with
  | None => emit (ToSocket s) (Error "Group not found")
  | Some group =>
      if negb (Group.isMember group userId) then
        let group := Group.addMember group userId in
        Group_save o gid group ;;
        socket_join s (group_room gid) ;;
        emit (ToRoom (group_room gid)) (GroupUpdate "member_joined" gid userId) ;;
        emit (ToSocket s) (GroupJoined gid (Group.name group))
      else
        emit (ToSocket s) (Error "You are already a member of this group")
  end.

Definition join_group (o : Outcomes) (payload : option Data) : M unit :=
  try_catch
    (data ← destructure payload;
     if negb (truthy (groupId data)) then
       emit (ToSocket s) (Error "Group ID is required")
     else
       let gid := str (groupId data) in
       group ← Group_findById o gid;
       join_group_found o gid group)
    (emit (ToSocket s) (Error "Failed to join group")).

(** A run of the join handler picked up where its group lookup resolved
    with [group]: the rest of the [try] block, under the same [catch]. *)
Definition join_group_resumed (o : Outcomes) (gid : string) (group : option Group.t) : M unit :=
  try_catch
    (join_group_found o gid group)
    (emit (ToSocket s) (Error "Failed to join group")).

Definition leave_group (o : Outcomes) (payload : option Data) : M unit :=
  try_catch
    (data ← destructure payload;
     if negb (truthy (groupId data)) then
       emit (ToSocket s) (Error "Group ID is required")
     else
       let gid := str (groupId data) in
       group ← Group_findById o gid;
       match group with
       | None => emit (ToSocket s) (Error "Group not found")
       | Some group =>
           if negb (Group.isMember group userId) then
             emit (ToSocket s) (Error "You are not a member of this group")
           else if Group.equals (Group.creator group) userId
                   && (1 <? length (Group.members group))%nat then
             emit (ToSocket s)
               (Error "Group creator cannot leave. Transfer ownership or delete the group.")
           else
             let group := Group.removeMember group userId in
             Group_save o gid group ;;
             socket_leave s (group_room gid) ;;
             (if (length (Group.members group) =? 0)%nat then
                Group_findByIdAndDelete o gid ;;
                emit ToAll (GroupDeleted gid)
              else
                emit (ToRoom (group_room gid)) (GroupUpdate "member_left" gid userId)) ;;
             emit (ToSocket s) (GroupLeft gid (Group.name group))
       end)
    (emit (ToSocket s) (Error "Failed to leave group")).

(** The two typing handlers have no [try]: the TypeError of a missing
    payload leaves them uncaught. *)
Definition typing (payload : option Data) : M unit :=
  data ← destructure payload;
  when (truthy (recipientId data))
    (emit (ToRoom (user_room (str (recipientId data))))
       (Typing userId (isTyping data))).

Definition group_typing (payload : option Data) : M unit :=
  data ← destructure payload;
  when (truthy (groupId data))
    (emit (ToRoomExcept (group_room (str (groupId data))) s)
       (GroupTyping userId (str (groupId data)) (User.firstName me) (isTyping data))).

Definition disconnect : M unit :=
  modify (set_userSockets (delete userId)) ;;
  emit ToAll (UserStatus userId "offline").
End Handlers.

(** ** The server as a transition system *)

(** The events a client can send. *)
Inductive EventName :=
| direct_message_event
| group_message_event
| join_group_event
| leave_group_event
| typing_event
| group_typing_event.

(** An event received on a live socket: a client event with its payload
    object [data] (a payload that is not an object has no fields and reads
    as the empty object), a client event sent with no payload at all (or
    with [null]), or the disconnection. *)
Inductive Inbound :=
| on_direct_message (o : Outcomes) (data : Data)
| on_group_message (o : Outcomes) (data : Data)
| on_join_group (o : Outcomes) (data : Data)
| on_leave_group (o : Outcomes) (data : Data)
| on_typing (data : Data)
| on_group_typing (data : Data)
| on_bare (name : EventName) (o : Outcomes)
| on_disconnect.

Inductive Input :=
| Connect (s : string) (u : User.t)                    (* an authenticated handshake *)
| GroupsFound (s : string) (found : option (list string))
    (* the group query of [joinUserGroups(socket)] has settled *)
| On (s : string) (e : Inbound).

(** The handler registered under an event name, applied to a payload. *)
Definition listener (s : string) (me : User.t) (name : EventName) (o : Outcomes)
    (payload : option Data) : M unit :=
  match name with
  | direct_message_event => direct_message s me o payload
  | group_message_event => group_message s me o payload
  | join_group_event => join_group s me o payload
  | leave_group_event => leave_group s me o payload
  | typing_event => typing me payload
  | group_typing_event => group_typing s me payload
  end.

Definition dispatch (s : string) (me : User.t) (e : Inbound) : M unit :=
  match e with
  | on_direct_message o data => listener s me direct_message_event o (Some data)
  | on_group_message o data => listener s me group_message_event o (Some data)
  | on_join_group o data => listener s me join_group_event o (Some data)
  | on_leave_group o data => listener s me leave_group_event o (Some data)
  | on_typing data => listener s me typing_event all_ok (Some data)
  | on_group_typing data => listener s me group_typing_event all_ok (Some data)
  | on_bare name o => listener s me name o None
  | on_disconnect =>
      (* socket.io has the socket leave its rooms and drops it from the
         server before it fires 'disconnect' *)
      modify (set_sockets (delete s)) ;;
      disconnect me
  end.

(** A handshake that passed the middleware creates the socket with
    [socket.user] attached and runs the connection callback; the group query
    it started settles some time later; an event is handled by the closure
    registered on its socket. *)
Definition handler (i : Input) : M unit :=
  match i with
  | Connect s u =>
      modify (set_sockets (insert s (mkSocket u ∅))) ;;
      connection s u
  | GroupsFound s found => joinUserGroups s found
  | On s e =>
      sock ← gets (fun st => sockets st !! s);
      match sock with
      | Some sock => dispatch s (user sock) e
      | None => ret tt
      end
  end.

(** How a computation ended, the state it left, and what it did. *)
Definition erase (r : Res unit * State * list (State * Action))
    : Res unit * State * list Action :=
  (r.1.1, r.1.2, map snd r.2).

Definition handle (i : Input) (st : State) : Res unit * State * list Action :=
  erase (handler i st).

(** What each emission of a step reached: the recipients of its target in
    the state the emission was made in. *)
Definition reached (entry : State * Action) : option (gset string * Event) :=
  match entry with
  | (st, Emit t e) => Some (recipients st t, e)
  | _ => None
  end.

Definition deliveries (st : State) (i : Input) : list (gset string * Event) :=
  omap reached (handler i st).2.

(** The join handler of socket [s] resumed in [st] with the document its
    lookup had loaded. *)
Definition resume_join (s : string) (me : User.t) (o : Outcomes) (gid : string)
    (loaded : option Group.t) (st : State) : Res unit * State * list Action :=
  erase (join_group_resumed s me o gid loaded st).

Definition next (st : State) (i : Input) : State := (handle i st).1.2.
Definition trace (st : State) (i : Input) : list Action := (handle i st).2.

Definition run (inputs : list Input) (st : State) : State := foldl next st inputs.

(** socket.io gives every new socket an id no live socket has, and the
    middleware only admits a user it found in the collection. *)
Definition admissible (st : State) (i : Input) : Prop :=
  match i with
  | Connect s u => sockets st !! s = None ∧ users st !! User._id u = Some u
  | _ => True
  end.

(** At start-up nobody is connected; the collections hold whatever the
    database holds. *)
Definition started (st : State) : Prop :=
  userSockets st = ∅ ∧ sockets st = ∅.

(** The REST layer writes the collections behind the socket service's back. *)
Definition rest_write (st : State) (gs : gmap string Group.t)
    (ms : list Message.t) (us : gmap string User.t) : State :=
  mkState (userSockets st) (sockets st) gs ms us.

Inductive reachable : State → Prop :=
| reach_start st : started st → reachable st
| reach_step st i : reachable st → admissible st i → reachable (next st i)
| reach_rest st gs ms us : reachable st → reachable (rest_write st gs ms us).

(** *** Reading a trace *)

Definition is_fanout (sender : string) (a : Action) : bool :=
  match a with
  | Emit (ToSocket s) _ => negb (String.eqb s sender)
  | Emit _ _ => true
  | _ => false
  end.

Definition is_save_message (a : Action) : bool :=
  match a with
  | SaveMessage _ => true
  | _ => false
  end.

Definition is_error (a : Action) : bool :=
  match a with
  | Emit _ (Error _) => true
  | _ => false
  end.

(** Scanning a trace: no fan-out before a message has been saved. *)
Fixpoint saved_first (sender : string) (saved : bool) (tr : list Action) : bool :=
  match tr with
  | [] => true
  | a :: tr =>
      (if is_fanout sender a then saved else true)
      && saved_first sender (saved || is_save_message a) tr
  end.

(** The inputs that leave socket [s] subscribed to the room of group [gid]:
    anything but its own disconnection, its own leave of that group, and a
    handshake reusing its id. *)
Definition keeps (s gid : string) (i : Input) : Prop :=
  match i with
  | Connect s' _ => s' ≠ s
  | On s' on_disconnect => s' ≠ s
  | On s' (on_leave_group _ data) => s' ≠ s ∨ str (groupId data) ≠ gid
  | _ => True
  end.

(** The room an event makes its socket leave, if any. *)
Definition leaves (e : Inbound) (room : string) : Prop :=
  match e with
  | on_leave_group _ data => room = group_room (str (groupId data))
  | _ => False
  end.

(** The registry never names a dead socket: an entry points to a live
    connection of its identity. *)
Definition registry_sound (st : State) : Prop :=
  ∀ u sid, userSockets st !! u = Some sid → sid ∈ connectionsFor st u.

(** The inputs that write the registry entry of identity [u]: a handshake of
    [u], and the disconnection of any live socket of [u]. *)
Definition presence_input (st : State) (u : string) (i : Input) : Prop :=
  match i with
  | Connect _ u' => User._id u' = u
  | On s on_disconnect => s ∈ connectionsFor st u
  | _ => False
  end.

(** ** Sample data *)

Definition alice : User.t := User.mk "a1" "Liddell" "Alice" "alice@example.org".
Definition bob : User.t := User.mk "b2" "Builder" "Bob" "bob@example.org".

Definition club : Group.t := Group.mk "club" None "b2" ["b2"] 0.

Definition db : State :=
  mkState ∅ ∅ {["g1" := club]} [] {["a1" := alice; "b2" := bob]}.

Definition msg (rid gid c : option string) : Data := mkData rid gid c None.

(** Two connections of Alice, and Bob connected once. *)
Definition two_tabs : State :=
  run [Connect "s1" alice; Connect "s2" alice] db.

Definition with_bob : State :=
  run [Connect "s3" bob; GroupsFound "s3" (Some (Group_find two_tabs "b2"))] two_tabs.

Definition join_g1 : Inbound := on_join_group all_ok (msg None (Some "g1") None).

(** Alice has joined Bob's group from her first connection. *)
Definition joined : State := next with_bob (On "s1" join_g1).

Definition leave_g1 : Inbound := on_leave_group all_ok (msg None (Some "g1") None).

(** ** The authentication middleware *)

(** What the middleware passes to [next]: nothing, with [socket.user] set,
    or an error that refuses the handshake. *)
Inductive Admission :=
| Accept (user : User.t)
| Reject (message : string).

Section Middleware.
(** [jwt.verify(token, secret)]: the [id] of the decoded payload (tokens are
    signed over [{ id }]), or a throw. *)
Variable jwt_verify : string → option string.

(** [io.use(async (socket, next) => ...)]; [find_ok] tells whether the
    awaited [User.findById] is fulfilled.  Anything thrown inside the [try]
    is reported as an invalid token. *)
Definition authenticate (find_ok : bool) (token : option string) (st : State) : Admission :=
  if negb (truthy token) then Reject "Authentication error: Token not provided"
  else
    match jwt_verify (str token) with
    | None => Reject "Authentication error: Invalid token"
    | Some id =>
        if find_ok then
          match users st !! id with
          | None => Reject "Authentication error: User not found"
          | Some user => Accept user
          end
        else Reject "Authentication error: Invalid token"
    end.
End Middleware.

(** ** Invariants of the running server *)

(** Every live socket sits in the personal room of its own user and in no
    other personal room. *)
Definition personal_rooms (st : State) : Prop :=
  ∀ s sock, sockets st !! s = Some sock →
    ∀ u, user_room u ∈ rooms sock ↔ u = User._id (user sock).

(** No stored group lists a member twice. *)
Definition members_distinct (st : State) : Prop :=
  ∀ gid g, groups st !! gid = Some g → NoDup (Group.members g).

(** Every stored group lists its creator as a member. *)
Definition creators_inside (st : State) : Prop :=
  ∀ gid g, groups st !! gid = Some g → Group.creator g ∈ Group.members g.

(** The inputs that may write the Group collection. *)
Definition writes_groups (i : Input) : bool :=
  match i with
  | On _ (on_join_group _ _) | On _ (on_leave_group _ _) => true
  | _ => false
  end.

(** The [findByIdAndDelete] of a leave, if the input is one, is fulfilled. *)
Definition delete_fulfilled (i : Input) : Prop :=
  match i with
  | On _ (on_leave_group o _) => delete_ok o = true
  | _ => True
  end.

(** A typing or group-typing event sent without payload to a live socket. *)
Definition bare_typing (st : State) (i : Input) : Prop :=
  match i with
  | On s (on_bare typing_event _) | On s (on_bare group_typing_event _) =>
      is_Some (sockets st !! s)
  | _ => False
  end.

(** How a handler run ended. *)
Definition outcome (st : State) (i : Input) : Res unit := (handle i st).1.1.


(** A token check that knows one token, Alice's. *)
Definition sample_verify (token : string) : option string :=
  if String.eqb token "tok-a1" then Some "a1" else None.

(** ** Running the handlers *)

Ltac unfold_m :=
  unfold resume_join, handle, erase, handler, dispatch, listener, direct_message,
    group_message, join_group, join_group_resumed, join_group_found, leave_group,
    typing, group_typing, disconnect, connection, joinUserGroups, destructure,
    Group_findById, Group_save, Group_findByIdAndDelete, new_Message, Message_save,
    Message_populate, socket_join, socket_leave, when, await, emit, act,
    try_catch, gets, modify, throw, mbind, M_bind, bind, mret, M_ret, ret.

(** Run the handler of an event received on the live socket [Hs] talks about. *)
Ltac on_socket Hs := unfold next, trace; unfold_m; rewrite Hs; simpl.

(** Every [SaveMessage] of a computed trace put its message in the collection. *)
Ltac saved_in_store :=
  let m := fresh "m" in
  let Hm := fresh "Hm" in
  intros m Hm;
  repeat (apply elem_of_cons in Hm as [Hm | Hm]; [try discriminate Hm |]);
  try (by apply elem_of_nil in Hm);
  injection Hm as ->; simpl; apply elem_of_app; right; apply elem_of_cons; by left.

(** Closing the frame conditions of a handler run on socket [Hs]. *)
Ltac frame Hs :=
  split_and!;
  [ done
  | intros ? ?; simpl; rewrite ?lookup_alter_ne by done; done
  | simpl; rewrite ?lookup_alter_eq, ?Hs; simpl;
    eexists; split_and!; [reflexivity | done | ] ].

(** Split on every test a handler run still waits on. *)
Ltac crunch :=
  repeat (simpl; match goal with
    | |- context [truthy ?v] => destruct (truthy v) eqn:?
    | |- context [find_ok ?o] => destruct (find_ok o) eqn:?
    | |- context [groups ?st !! ?g] => destruct (groups st !! g) eqn:?
    | |- context [Group.isMember ?g ?u] => destruct (Group.isMember g u) eqn:?
    | |- context [Group.equals ?a ?b && ?c] => destruct (Group.equals a b && c) eqn:?
    | |- context [save_ok ?o] => destruct (save_ok o) eqn:?
    | |- context [populate_ok ?o] => destruct (populate_ok o) eqn:?
    | |- context [isOnline ?st ?u] => destruct (isOnline st u) eqn:?
    | |- context [(length ?l =? 0)%nat] => destruct (length l =? 0)%nat eqn:?
    | |- context [delete_ok ?o] => destruct (delete_ok o) eqn:?
    end); simpl.

(** One case per event, and per event name for an event without payload. *)
Ltac events e :=
  let o := fresh "o" in
  let data := fresh "data" in
  destruct e as [o data | o data | o data | o data | data | data | [| | | | |] o |].

(** Take a membership in a computed trace apart. *)
Ltac in_trace H :=
  repeat (apply elem_of_cons in H as [H | H]; [try discriminate H |]);
  try (by apply elem_of_nil in H).

(** ** The Group model *)

Section GroupModel.
Import Group.

Lemma equals_eq (m u : string) : equals m u = true ↔ m = u.
Proof. unfold equals. apply String.eqb_eq. Qed.

Lemma equals_refl (u : string) : equals u u = true.
Proof. by apply equals_eq. Qed.

Lemma equals_ne (m u : string) : m ≠ u → equals m u = false.
Proof. intros H. destruct (equals m u) eqn:E; [|done]. by apply equals_eq in E. Qed.

Lemma isMember_elem_of (g : t) (u : string) : isMember g u = true ↔ u ∈ members g.
Proof.
  unfold isMember. rewrite existsb_exists, list_elem_of_In. split.
  - intros (m & Hin & He). apply equals_eq in He. by subst.
  - intros Hin. exists u. split; [done | apply equals_refl].
Qed.

Lemma isMember_false (g : t) (u : string) : isMember g u = false ↔ u ∉ members g.
Proof.
  rewrite <- isMember_elem_of. destruct (isMember g u); split; congruence.
Qed.

Lemma keep_others (u : string) (l : list string) :
  u ∉ l → filter (fun member => negb (equals member u)) l = l.
Proof.
  intros Hn. induction l as [|m l IH]; [done|].
  apply not_elem_of_cons in Hn as [Hne Hn].
  rewrite filter_cons_True by (rewrite equals_ne; [done | congruence]).
  by rewrite IH.
Qed.

Lemma count_after_removal (u v : string) (l : list string) :
  v ≠ u →
  count_occ String.string_dec (filter (fun member => negb (equals member u)) l) v
  = count_occ String.string_dec l v.
Proof.
  intros Hne. induction l as [|m l IH]; [done|].
  destruct (decide (m = u)) as [->|Hm].
  - rewrite filter_cons_False by (rewrite equals_refl; auto).
    rewrite count_occ_cons_neq by congruence. done.
  - rewrite filter_cons_True by (rewrite equals_ne; done).
    simpl. rewrite IH. done.
Qed.

Lemma count_absent (u : string) (l : list string) :
  u ∉ l → count_occ String.string_dec l u = 0.
Proof. rewrite list_elem_of_In. apply count_occ_not_In. Qed.

Lemma addMember_members (g : t) (u : string) :
  isMember g u = false → members (addMember g u) = members g ++ [u].
Proof. intros H. unfold addMember. by rewrite H. Qed.

Lemma addMember_isMember (g : t) (u : string) : isMember (addMember g u) u = true.
Proof.
  unfold addMember. destruct (isMember g u) eqn:E; simpl; [done|].
  apply isMember_elem_of. simpl. set_solver.
Qed.

Lemma two_members (g : t) (u v : string) :
  u ∈ members g → v ∈ members g → v ≠ u → 1 < length (members g).
Proof.
  intros Hu Hv Hne. destruct (members g) as [|a [|b l]]; simpl; [| |lia].
  - by apply elem_of_nil in Hu.
  - apply list_elem_of_singleton in Hu, Hv. congruence.
Qed.
End GroupModel.

(** C10: [removeMember] only rewrites the members list.  Afterwards the user
    is not a member, every other identity occurs as often as before and in
    the same relative order (the new list is a sublist of the old one), the
    name, description, creator and creation date are untouched, and removing
    a non-member leaves the list as it was. *)
Theorem removeMember_frame (g : Group.t) (u : string) :
  let g' := Group.removeMember g u in
  Group.isMember g' u = false
  ∧ (∀ v, v ≠ u → Group.isMember g' v = Group.isMember g v)
  ∧ (∀ v, v ≠ u →
       count_occ String.string_dec (Group.members g') v
       = count_occ String.string_dec (Group.members g) v)
  ∧ Group.members g' `sublist_of` Group.members g
  ∧ Group.name g' = Group.name g
  ∧ Group.description g' = Group.description g
  ∧ Group.creator g' = Group.creator g
  ∧ Group.createdAt g' = Group.createdAt g
  ∧ (Group.isMember g u = false → Group.members g' = Group.members g).
Proof.
  simpl. repeat split.
  - apply isMember_false. simpl. rewrite list_elem_of_filter.
    intros [H _]. rewrite equals_refl in H. done.
  - intros v Hne.
    destruct (Group.isMember g v) eqn:E.
    + apply isMember_elem_of in E. apply isMember_elem_of. simpl.
      apply list_elem_of_filter. split; [|done]. by rewrite equals_ne.
    + apply isMember_false in E. apply isMember_false. simpl.
      rewrite list_elem_of_filter. tauto.
  - intros v Hne. simpl. by apply count_after_removal.
  - simpl. apply sublist_filter.
  - intros H. simpl. apply keep_others. by apply isMember_false.
Qed.

Lemma removeMember_frame_witness :
  Group.members (Group.removeMember club "a1") = Group.members club.
Proof.
  apply (removeMember_frame club "a1"). reflexivity.
Defined.

(** ** Facts about the handlers *)

Lemma room_of_group_inj (g1 g2 : string) : group_room g1 = group_room g2 → g1 = g2.
Proof. unfold group_room. intros H. cbn in H. by simplify_eq. Qed.

Lemma user_room_not_group (u gid : string) : user_room u ≠ group_room gid.
Proof. unfold user_room, group_room. intros H. cbn in H. discriminate. Qed.

Lemma user_room_inj (u v : string) : user_room u = user_room v → u = v.
Proof. unfold user_room. intros H. cbn in H. by simplify_eq. Qed.

(** C2: a group message from a sender who is not a member of the target
    group produces one error event, addressed to the sender's socket only,
    and changes nothing (no message record, no fan-out); when the event is
    well formed and the group is found, that error is the authorization
    error "You are not a member of this group". *)
Theorem group_message_non_member (st : State) (s : string) (sock : Socket)
    (o : Outcomes) (data : Data) :
  sockets st !! s = Some sock →
  (∀ g, groups st !! str (groupId data) = Some g →
        Group.isMember g (User._id (user sock)) = false) →
  ∃ m, handle (On s (on_group_message o data)) st
       = (Done tt, st, [Emit (ToSocket s) (Error m)])
     ∧ (truthy (groupId data) = true → truthy (content data) = true →
        find_ok o = true → is_Some (groups st !! str (groupId data)) →
        m = "You are not a member of this group").
Proof.
  intros Hs Hg. on_socket Hs.
  destruct (truthy (groupId data)), (truthy (content data)); simpl;
    try (eexists; split; [reflexivity | intros; discriminate]).
  destruct (find_ok o); simpl;
    try (eexists; split; [reflexivity | intros; discriminate]).
  destruct (groups st !! str (groupId data)) as [g|] eqn:E; simpl.
  - rewrite (Hg g eq_refl). simpl. eexists; split; [reflexivity | done].
  - eexists; split; [reflexivity |]. intros _ _ _ [g Hsome]. discriminate.
Qed.

Lemma group_message_non_member_witness :
  ∃ m, handle (On "s1" (on_group_message all_ok (msg None (Some "g1") (Some "hi")))) two_tabs
       = (Done tt, two_tabs, [Emit (ToSocket "s1") (Error m)])
     ∧ m = "You are not a member of this group".
Proof.
  destruct (group_message_non_member two_tabs "s1" (mkSocket alice {[user_room "a1"]})
              all_ok (msg None (Some "g1") (Some "hi"))) as (m & Hrun & Hm).
  - vm_compute. reflexivity.
  - intros g Hg. vm_compute in Hg. injection Hg as <-. reflexivity.
  - exists m. split; [exact Hrun |].
    apply Hm; try reflexivity. vm_compute. eauto.
Defined.




(** C8, as the code has it: a message, join or leave event whose payload
    object lacks a required field gets the validation error of its handler,
    and one sent with no payload at all gets the handler's "Failed to ..."
    error; either way the error goes to the sender only and the state is
    unchanged.  A typing indicator that carries a payload object is never
    answered with an error: without a target id it is dropped silently, and
    with one it is forwarded with whatever flag it carries; it does not
    change the state. *)
Theorem missing_field (st : State) (s : string) (sock : Socket)
    (o : Outcomes) (data : Data) :
  sockets st !! s = Some sock →
  (truthy (recipientId data) = false ∨ truthy (content data) = false →
   handle (On s (on_direct_message o data)) st
   = (Done tt, st, [Emit (ToSocket s) (Error "Recipient ID and content are required")]))
  ∧ (truthy (groupId data) = false ∨ truthy (content data) = false →
     handle (On s (on_group_message o data)) st
     = (Done tt, st, [Emit (ToSocket s) (Error "Group ID and content are required")]))
  ∧ (truthy (groupId data) = false →
     handle (On s (on_join_group o data)) st
     = (Done tt, st, [Emit (ToSocket s) (Error "Group ID is required")])
     ∧ handle (On s (on_leave_group o data)) st
       = (Done tt, st, [Emit (ToSocket s) (Error "Group ID is required")]))
  ∧ (truthy (recipientId data) = false →
     handle (On s (on_typing data)) st = (Done tt, st, []))
  ∧ (truthy (groupId data) = false →
     handle (On s (on_group_typing data)) st = (Done tt, st, []))
  ∧ (truthy (recipientId data) = true →
     trace st (On s (on_typing data))
     = [Emit (ToRoom (user_room (str (recipientId data))))
          (Typing (User._id (user sock)) (isTyping data))])
  ∧ next st (On s (on_typing data)) = st
  ∧ next st (On s (on_group_typing data)) = st
  ∧ handle (On s (on_bare direct_message_event o)) st
    = (Done tt, st, [Emit (ToSocket s) (Error "Failed to send message")])
  ∧ handle (On s (on_bare group_message_event o)) st
    = (Done tt, st, [Emit (ToSocket s) (Error "Failed to send group message")])
  ∧ handle (On s (on_bare join_group_event o)) st
    = (Done tt, st, [Emit (ToSocket s) (Error "Failed to join group")])
  ∧ handle (On s (on_bare leave_group_event o)) st
    = (Done tt, st, [Emit (ToSocket s) (Error "Failed to leave group")]).
Proof.
  intros Hs. split_and!; on_socket Hs.
  - intros [-> | ->]; simpl; [done|]. by rewrite orb_true_r.
  - intros [-> | ->]; simpl; [done|]. by rewrite orb_true_r.
  - by intros ->.
  - by intros ->.
  - by intros ->.
  - by intros ->.
  - by destruct (truthy (recipientId data)).
  - by destruct (truthy (groupId data)).
  - done.
  - done.
  - done.
  - done.
Qed.

Lemma missing_field_witness :
  handle (On "s1" (on_direct_message all_ok (msg None None None))) two_tabs
  = (Done tt, two_tabs,
     [Emit (ToSocket "s1") (Error "Recipient ID and content are required")])
  ∧ handle (On "s1" (on_typing (msg None None None))) two_tabs = (Done tt, two_tabs, [])
  ∧ handle (On "s1" (on_bare join_group_event all_ok)) two_tabs
    = (Done tt, two_tabs, [Emit (ToSocket "s1") (Error "Failed to join group")]).
Proof.
  destruct (missing_field two_tabs "s1" (mkSocket alice {[user_room "a1"]}) all_ok
              (msg None None None)) as (Hdm & _ & _ & Hty & _ & _ & _ & _ & _ & _ & Hbare & _).
  - vm_compute. reflexivity.
  - split_and!; [apply Hdm; left; reflexivity | apply Hty; reflexivity | exact Hbare].
Defined.

(** C8 fails as stated on the typing handlers: a typing indicator without a
    target id is answered with nothing at all, and one without its flag is
    forwarded. *)
Lemma typing_without_target_is_silent :
  trace two_tabs (On "s1" (on_typing (msg None None None))) = []
  ∧ trace two_tabs (On "s1" (on_group_typing (msg None None None))) = []
  ∧ trace two_tabs (On "s1" (on_typing (msg (Some "b2") None None)))
    = [Emit (ToRoom (user_room "b2")) (Typing "a1" None)].
Proof. vm_compute. done. Qed.

(** C9, as the code has it: every group typing indicator that carries a
    group id is forwarded, whether or not the sender belongs to the group;
    it reaches exactly the sockets subscribed to the group's room other
    than the sender's own socket, and nothing is sent back to the sender. *)
Theorem group_typing_fanout (st : State) (s : string) (sock : Socket) (data : Data) :
  sockets st !! s = Some sock →
  truthy (groupId data) = true →
  let gid := str (groupId data) in
  let target := ToRoomExcept (group_room gid) s in
  handle (On s (on_group_typing data)) st
  = (Done tt, st,
     [Emit target
        (GroupTyping (User._id (user sock)) gid (User.firstName (user sock))
           (isTyping data))])
  ∧ (s ∉ recipients st target)
  ∧ (∀ s', s' ≠ s →
       (s' ∈ recipients st target ↔ s' ∈ in_room (group_room gid) st)).
Proof.
  intros Hs Hg. split; [|split].
  - on_socket Hs. by rewrite Hg.
  - simpl. rewrite elem_of_difference, elem_of_singleton. tauto.
  - intros s' Hne. simpl. rewrite elem_of_difference, elem_of_singleton. tauto.
Qed.

Lemma group_typing_fanout_witness :
  trace with_bob (On "s3" (on_group_typing (msg None (Some "g1") None)))
  = [Emit (ToRoomExcept (group_room "g1") "s3") (GroupTyping "b2" "g1" "Bob" None)]
  ∧ "s3" ∉ recipients with_bob (ToRoomExcept (group_room "g1") "s3").
Proof.
  destruct (group_typing_fanout with_bob "s3"
              (mkSocket bob {[user_room "b2"; group_room "g1"]})
              (msg None (Some "g1") None)) as (Hrun & Hself & _).
  - vm_compute. reflexivity.
  - reflexivity.
  - split; [| exact Hself]. unfold trace. rewrite Hrun. reflexivity.
Defined.

(** C9 fails as stated: Alice is not a member of the group, yet her typing
    indicator is forwarded and reaches Bob's socket. *)
Lemma group_typing_from_non_member :
  let i := On "s1" (on_group_typing (msg None (Some "g1") None)) in
  groups with_bob !! "g1" = Some club
  ∧ Group.isMember club "a1" = false
  ∧ trace with_bob i
    = [Emit (ToRoomExcept (group_room "g1") "s1") (GroupTyping "a1" "g1" "Alice" None)]
  ∧ recipients with_bob (ToRoomExcept (group_room "g1") "s1") = {["s3"]}.
Proof. vm_compute. done. Qed.

(** ** Persistence and fan-out *)

Lemma saved_first_spec (sender : string) (tr : list Action) :
  ∀ saved, saved_first sender saved tr = true →
  ∀ pre a post, tr = pre ++ a :: post → is_fanout sender a = true →
  saved = true ∨ ∃ m, SaveMessage m ∈ pre.
Proof.
  induction tr as [|b tr IH]; intros saved Hscan pre a post Heq Hfan.
  - by destruct pre.
  - simpl in Hscan. apply andb_true_iff in Hscan as [Hhead Htail].
    destruct pre as [|b' pre]; simpl in Heq; injection Heq as <- ->.
    + rewrite Hfan in Hhead. by left.
    + destruct (IH _ Htail pre a post eq_refl Hfan) as [Hs | [m Hm]].
      * apply orb_true_iff in Hs as [Hs | Hs]; [by left | right].
        destruct b; try discriminate. eexists. by left.
      * right. exists m. by right.
Qed.

(** C3: in the direct-message and group-message handlers no fan-out
    emission happens before the message has been saved, every save the trace
    records is in the message collection afterwards, and when the save is
    rejected the state is unchanged and the only emission is one error event
    to the sender's socket. *)
Theorem persist_before_fanout (st : State) (s : string) (sock : Socket)
    (o : Outcomes) (data : Data) (e : Inbound) :
  sockets st !! s = Some sock →
  e = on_direct_message o data ∨ e = on_group_message o data →
  (∀ pre a post, trace st (On s e) = pre ++ a :: post → is_fanout s a = true →
     ∃ m, SaveMessage m ∈ pre)
  ∧ (∀ m, SaveMessage m ∈ trace st (On s e) → m ∈ messages (next st (On s e)))
  ∧ (save_ok o = false →
     next st (On s e) = st
     ∧ ∃ m, trace st (On s e) = [Emit (ToSocket s) (Error m)]).
Proof.
  intros Hs He.
  assert (Hscan : saved_first s false (trace st (On s e)) = true
                  ∧ (∀ m, SaveMessage m ∈ trace st (On s e) →
                          m ∈ messages (next st (On s e)))
                  ∧ (save_ok o = false →
                     next st (On s e) = st
                     ∧ ∃ m, trace st (On s e) = [Emit (ToSocket s) (Error m)])).
  { destruct He as [-> | ->]; on_socket Hs.
    - destruct (truthy (recipientId data)), (truthy (content data)),
        (save_ok o), (populate_ok o); simpl;
        try destruct (isOnline _ _); simpl;
        rewrite ?String.eqb_refl; simpl;
        (split_and!; [done | saved_in_store | by eauto]).
    - destruct (truthy (groupId data)), (truthy (content data)), (find_ok o); simpl;
        try destruct (groups st !! str (groupId data)) as [g|]; simpl;
        try destruct (Group.isMember g _); simpl;
        try destruct (save_ok o); simpl;
        try destruct (populate_ok o); simpl;
        rewrite ?String.eqb_refl; simpl;
        (split_and!; [done | saved_in_store | by eauto]). }
  destruct Hscan as (Hscan & Hstore & Hfail). split_and!; [|done|done].
  intros pre a post Heq Hfan.
  destruct (saved_first_spec s _ false Hscan pre a post Heq Hfan); [discriminate | done].
Qed.

Lemma persist_before_fanout_witness :
  let i := On "s1" (on_direct_message (mkOutcomes true false true true)
                      (msg (Some "b2") None (Some "hi"))) in
  next with_bob i = with_bob
  ∧ ∃ m, trace with_bob i = [Emit (ToSocket "s1") (Error m)].
Proof.
  apply (persist_before_fanout with_bob "s1" (mkSocket alice {[user_room "a1"]})
           (mkOutcomes true false true true) (msg (Some "b2") None (Some "hi"))).
  - vm_compute. reflexivity.
  - left. reflexivity.
  - reflexivity.
Defined.

(** ** Membership changes *)

Lemma in_room_spec (room s : string) (st : State) :
  s ∈ in_room room st ↔ ∃ sock, sockets st !! s = Some sock ∧ room ∈ rooms sock.
Proof.
  unfold in_room. rewrite elem_of_dom. unfold is_Some.
  setoid_rewrite map_lookup_filter_Some. simpl. naive_solver.
Qed.

Lemma connectionsFor_spec (u s : string) (st : State) :
  s ∈ connectionsFor st u ↔ ∃ sock, sockets st !! s = Some sock ∧ User._id (user sock) = u.
Proof.
  unfold connectionsFor. rewrite elem_of_dom. unfold is_Some.
  setoid_rewrite map_lookup_filter_Some. simpl. naive_solver.
Qed.

Lemma isMember_only (g : Group.t) (u : string) :
  Group.members g = [u] → Group.isMember g u = true.
Proof. intros H. apply isMember_elem_of. rewrite H. by left. Qed.

Lemma removeMember_only (g : Group.t) (u : string) :
  Group.members g = [u] → Group.members (Group.removeMember g u) = [].
Proof.
  intros H. simpl. rewrite H.
  rewrite filter_cons_False by (rewrite equals_refl; auto). done.
Qed.

(** C5: with the group found, a leave by the creator while another member
    remains is refused with the "creator cannot leave" error, sent to the
    sender only, and nothing changes; a leave by the only member (store calls
    fulfilled) saves the emptied group, deletes the record, broadcasts
    [group_deleted] exactly once, unsubscribes the socket and confirms. *)
Theorem leave_group_creator_or_last (st : State) (s : string) (sock : Socket)
    (o : Outcomes) (data : Data) (g : Group.t) :
  sockets st !! s = Some sock →
  truthy (groupId data) = true → find_ok o = true →
  let u := User._id (user sock) in
  let gid := str (groupId data) in
  let i := On s (on_leave_group o data) in
  groups st !! gid = Some g →
  (Group.creator g = u → u ∈ Group.members g →
   (∃ v, v ∈ Group.members g ∧ v ≠ u) →
   handle i st
   = (Done tt, st,
      [Emit (ToSocket s)
         (Error "Group creator cannot leave. Transfer ownership or delete the group.")]))
  ∧ (Group.members g = [u] → save_ok o = true → delete_ok o = true →
     groups (next st i) !! gid = None
     ∧ Group.members (Group.removeMember g u) = []
     ∧ trace st i
       = [SaveGroup gid (Group.removeMember g u); DeleteGroup gid;
          Emit ToAll (GroupDeleted gid);
          Emit (ToSocket s) (GroupLeft gid (Group.name g))]
     ∧ s ∉ in_room (group_room gid) (next st i)).
Proof.
  intros Hs Hgid Hfind u gid i Hg. subst i. split.
  - intros Hcreator Hu (v & Hv & Hne).
    on_socket Hs. rewrite Hgid, Hfind. simpl. fold gid. rewrite Hg. simpl.
    fold u. rewrite (proj2 (isMember_elem_of g u) Hu), Hcreator, equals_refl. simpl.
    pose proof (two_members g u v Hu Hv Hne) as Hlen.
    destruct (Group.members g) as [|a [|b l]]; simpl in Hlen; [lia | lia | done].
  - intros Hmem Hsave Hdel.
    pose proof (removeMember_only g u Hmem) as Hrm.
    split_and!; [| exact Hrm | |].
    + on_socket Hs. rewrite Hgid, Hfind. simpl. fold gid. rewrite Hg. simpl.
      fold u. rewrite (isMember_only g u Hmem), Hsave. simpl.
      simpl in Hrm. rewrite Hrm, Hmem. simpl. rewrite andb_false_r. simpl.
      rewrite Hdel. simpl. apply lookup_delete_eq.
    + on_socket Hs. rewrite Hgid, Hfind. simpl. fold gid. rewrite Hg. simpl.
      fold u. rewrite (isMember_only g u Hmem), Hsave. simpl.
      simpl in Hrm. rewrite Hrm, Hmem. simpl. rewrite andb_false_r. simpl.
      rewrite Hdel. done.
    + rewrite in_room_spec. intros (sock' & Hs' & Hin). revert Hs' Hin.
      on_socket Hs. rewrite Hgid, Hfind. simpl. fold gid. rewrite Hg. simpl.
      fold u. rewrite (isMember_only g u Hmem), Hsave. simpl.
      simpl in Hrm. rewrite Hrm, Hmem. simpl. rewrite andb_false_r. simpl.
      rewrite Hdel. simpl. rewrite lookup_alter_eq, Hs. simpl.
      intros [= <-]. simpl. rewrite elem_of_difference, elem_of_singleton. tauto.
Qed.

Lemma leave_group_creator_or_last_witness :
  handle (On "s3" leave_g1) joined
  = (Done tt, joined,
     [Emit (ToSocket "s3")
        (Error "Group creator cannot leave. Transfer ownership or delete the group.")])
  ∧ groups (next with_bob (On "s3" leave_g1)) !! "g1" = None.
Proof.
  split.
  - apply (leave_group_creator_or_last joined "s3"
             (mkSocket bob {[user_room "b2"; group_room "g1"]}) all_ok
             (msg None (Some "g1") None) (Group.addMember club "a1")).
    + vm_compute. reflexivity.
    + reflexivity.
    + reflexivity.
    + vm_compute. reflexivity.
    + reflexivity.
    + simpl. apply elem_of_cons. by left.
    + exists "a1". split; [| discriminate]. simpl. apply elem_of_cons. right.
      apply elem_of_cons. by left.
  - apply (leave_group_creator_or_last with_bob "s3"
             (mkSocket bob {[user_room "b2"; group_room "g1"]}) all_ok
             (msg None (Some "g1") None) club); reflexivity.
Defined.

(** X24: two joins handled one after the other.  When a join of a group by
    a non-member has run to its end and a second join by the same identity
    (on any of its sockets) is handled after it, the first adds the identity,
    the second is answered with the "already a member" error and changes
    nothing, so the members list grows by exactly one over both calls and
    holds the identity once. *)
Theorem join_twice (st : State) (s s' : string) (sock sock' : Socket)
    (o o' : Outcomes) (data : Data) (g : Group.t) :
  sockets st !! s = Some sock →
  sockets st !! s' = Some sock' →
  User._id (user sock') = User._id (user sock) →
  truthy (groupId data) = true →
  find_ok o = true → save_ok o = true → find_ok o' = true →
  let u := User._id (user sock) in
  let gid := str (groupId data) in
  groups st !! gid = Some g →
  Group.isMember g u = false →
  let st1 := next st (On s (on_join_group o data)) in
  let st2 := next st1 (On s' (on_join_group o' data)) in
  groups st1 !! gid = Some (Group.addMember g u)
  ∧ Group.isMember (Group.addMember g u) u = true
  ∧ trace st1 (On s' (on_join_group o' data))
    = [Emit (ToSocket s') (Error "You are already a member of this group")]
  ∧ st2 = st1
  ∧ length (Group.members (Group.addMember g u)) = S (length (Group.members g))
  ∧ count_occ String.string_dec (Group.members (Group.addMember g u)) u = 1.
Proof.
  intros Hs Hs' Hsame Hgid Hfind Hsave Hfind' u gid Hg Hnot st1 st2.
  assert (Hst1 : st1 = set_sockets (alter (add_room (group_room gid)) s)
                         (set_groups (insert gid (Group.addMember g u)) st)).
  { subst st1. on_socket Hs. rewrite Hgid, Hfind. simpl. fold gid. rewrite Hg. simpl.
    fold u. rewrite Hnot, Hsave. done. }
  assert (Hg1 : groups st1 !! gid = Some (Group.addMember g u)).
  { rewrite Hst1. simpl. apply lookup_insert_eq. }
  assert (∃ sock1, sockets st1 !! s' = Some sock1 ∧ User._id (user sock1) = u)
    as (sock1 & Hs1 & Hu1).
  { rewrite Hst1. simpl. destruct (decide (s = s')) as [<- | Hne].
    - rewrite lookup_alter_eq, Hs. simpl. eauto.
    - rewrite lookup_alter_ne, Hs' by done. eauto. }
  assert (Hrun2 : handle (On s' (on_join_group o' data)) st1
                  = (Done tt, st1,
                     [Emit (ToSocket s') (Error "You are already a member of this group")])).
  { unfold_m. rewrite Hs1. simpl. rewrite Hgid, Hfind'. simpl. fold gid.
    rewrite Hg1. simpl. rewrite Hu1, addMember_isMember. done. }
  split_and!.
  - exact Hg1.
  - apply addMember_isMember.
  - unfold trace. by rewrite Hrun2.
  - unfold st2, next. by rewrite Hrun2.
  - rewrite addMember_members by done. rewrite length_app. simpl. lia.
  - rewrite addMember_members by done. rewrite count_occ_app. simpl.
    rewrite count_absent by (by apply isMember_false).
    destruct (String.string_dec u u); [done | congruence].
Qed.

Lemma join_twice_witness :
  trace joined (On "s2" join_g1)
  = [Emit (ToSocket "s2") (Error "You are already a member of this group")]
  ∧ length (Group.members (Group.addMember club "a1")) = 2.
Proof.
  assert (H1 : sockets with_bob !! "s1" = Some (mkSocket alice {[user_room "a1"]}))
    by (vm_compute; reflexivity).
  assert (H2 : sockets with_bob !! "s2" = Some (mkSocket alice {[user_room "a1"]}))
    by (vm_compute; reflexivity).
  assert (H3 : groups with_bob !! "g1" = Some club) by (vm_compute; reflexivity).
  destruct (join_twice with_bob "s1" "s2" _ _ all_ok all_ok (msg None (Some "g1") None)
              club H1 H2 eq_refl eq_refl eq_refl eq_refl eq_refl H3 eq_refl)
    as (_ & _ & Htr & _ & Hlen & _).
  split; [exact Htr | exact Hlen].
Defined.

(** With the payload well formed and the lookup fulfilled, a run of the join
    handler is its resumption from the lookup with the stored document. *)
Lemma join_group_resumes (st : State) (s : string) (sock : Socket)
    (o : Outcomes) (data : Data) :
  sockets st !! s = Some sock →
  truthy (groupId data) = true → find_ok o = true →
  handle (On s (on_join_group o data)) st
  = resume_join s (user sock) o (str (groupId data))
      (groups st !! str (groupId data)) st.
Proof.
  intros Hs Hgid Hfind. unfold_m. rewrite Hs. simpl. rewrite Hgid, Hfind.
  crunch; done.
Qed.

(** C6: the code at the failing input.  Alice is not yet a member and sends
    [join_group] for Bob's group on each of her two connections, the second
    while the first run is still waiting at an [await]: both lookups resolve
    with the group as stored before any save.  The first run is an ordinary
    run of the handler.  The second, resumed after it with the document it
    had loaded, passes the membership test again, saves, and is answered
    [group_joined] like the first; no "already a member" error is sent.
    Handled after the first run had finished, the same event is refused. *)
Theorem overlapping_joins :
  let loaded := groups with_bob !! "g1" in
  let first := resume_join "s1" alice all_ok "g1" loaded with_bob in
  let second := resume_join "s2" alice all_ok "g1" loaded first.1.2 in
  loaded = Some club
  ∧ Group.isMember club "a1" = false
  ∧ handle (On "s1" join_g1) with_bob = first
  ∧ first.2
    = [SaveGroup "g1" (Group.addMember club "a1");
       Emit (ToRoom (group_room "g1")) (GroupUpdate "member_joined" "g1" "a1");
       Emit (ToSocket "s1") (GroupJoined "g1" "club")]
  ∧ second.2
    = [SaveGroup "g1" (Group.addMember club "a1");
       Emit (ToRoom (group_room "g1")) (GroupUpdate "member_joined" "g1" "a1");
       Emit (ToSocket "s2") (GroupJoined "g1" "club")]
  ∧ existsb is_error second.2 = false
  ∧ trace first.1.2 (On "s2" join_g1)
    = [Emit (ToSocket "s2") (Error "You are already a member of this group")].
Proof. vm_compute. done. Qed.

(** ** What one step does to the registry and to the sockets *)

Lemma next_not_live (st : State) (s : string) (e : Inbound) :
  sockets st !! s = None → next st (On s e) = st.
Proof. intros Hs. unfold next. unfold_m. by rewrite Hs. Qed.

Lemma disconnect_effect (st : State) (s : string) (sock : Socket) :
  sockets st !! s = Some sock →
  handle (On s on_disconnect) st
  = (Done tt,
     set_userSockets (delete (User._id (user sock))) (set_sockets (delete s) st),
     [Emit ToAll (UserStatus (User._id (user sock)) "offline")]).
Proof. intros Hs. unfold_m. by rewrite Hs. Qed.

Lemma connect_effect (st : State) (s : string) (u : User.t) :
  userSockets (next st (Connect s u)) = <[User._id u := s]> (userSockets st)
  ∧ (∀ s', s' ≠ s → sockets (next st (Connect s u)) !! s' = sockets st !! s')
  ∧ (∃ rs, sockets (next st (Connect s u)) !! s = Some (mkSocket u rs)
           ∧ user_room (User._id u) ∈ rs)
  ∧ trace st (Connect s u) = [Emit ToAll (UserStatus (User._id u) "online")].
Proof.
  unfold next, trace. unfold_m. simpl. split_and!; [done | | | done].
  - intros s' Hne. by rewrite lookup_alter_ne, lookup_insert_ne.
  - rewrite lookup_alter_eq, lookup_insert_eq. simpl. eexists. split; [done|].
    apply elem_of_union. left. by apply elem_of_singleton.
Qed.

(** Joining the rooms of a list of groups touches one socket's rooms and
    nothing else. *)
Lemma join_each_spec (s : string) (ids : list string) :
  ∀ st, ∃ st',
    join_each s ids st = (Done tt, st', [])
    ∧ userSockets st' = userSockets st
    ∧ groups st' = groups st ∧ messages st' = messages st ∧ users st' = users st
    ∧ (∀ s', s' ≠ s → sockets st' !! s' = sockets st !! s')
    ∧ (sockets st !! s = None → sockets st' !! s = None)
    ∧ (∀ sock, sockets st !! s = Some sock →
         ∃ sock', sockets st' !! s = Some sock'
                  ∧ user sock' = user sock
                  ∧ ∀ room, room ∈ rooms sock'
                            ↔ room ∈ rooms sock
                              ∨ ∃ gid, gid ∈ ids ∧ room = group_room gid).
Proof.
  induction ids as [|gid ids IH]; intros st.
  - exists st. split_and!; try done.
    intros sock Hs. exists sock. split_and!; try done.
    intros room. split; [by left |].
    intros [H | (gid & Hin & _)]; [done | by apply elem_of_nil in Hin].
  - destruct (IH (set_sockets (alter (add_room (group_room gid)) s) st))
      as (st' & Hrun & Hreg & Hg & Hm & Hu & Hother & Hdead & Hown).
    exists st'. split_and!; try done.
    + simpl. unfold mbind, M_bind, bind, socket_join, modify. by rewrite Hrun.
    + intros s' Hne. rewrite Hother by done. simpl. by rewrite lookup_alter_ne.
    + intros Hs. apply Hdead. simpl. by rewrite lookup_alter_eq, Hs.
    + intros sock Hs.
      destruct (Hown (add_room (group_room gid) sock)) as (sock' & Hs' & Huser & Hrooms).
      { simpl. by rewrite lookup_alter_eq, Hs. }
      exists sock'. split_and!; [done | done |].
      intros room. rewrite Hrooms. simpl. rewrite elem_of_union, elem_of_singleton.
      split.
      * intros [[-> | H] | (g & Hin & ->)].
        -- right. exists gid. split; [by left | done].
        -- by left.
        -- right. exists g. split; [by right | done].
      * intros [H | (g & Hin & ->)]; [left; by right |].
        apply elem_of_cons in Hin as [-> | Hin]; [left; by left |].
        right. eauto.
Qed.

(** What the settled group query of [joinUserGroups] does. *)
Lemma groups_found_effect (st : State) (s : string) (found : option (list string)) :
  handle (GroupsFound s found) st = (Done tt, next st (GroupsFound s found), [])
  ∧ userSockets (next st (GroupsFound s found)) = userSockets st
  ∧ groups (next st (GroupsFound s found)) = groups st
  ∧ messages (next st (GroupsFound s found)) = messages st
  ∧ users (next st (GroupsFound s found)) = users st
  ∧ (∀ s', s' ≠ s → sockets (next st (GroupsFound s found)) !! s' = sockets st !! s')
  ∧ (sockets st !! s = None → sockets (next st (GroupsFound s found)) !! s = None)
  ∧ (∀ sock, sockets st !! s = Some sock →
       ∃ sock', sockets (next st (GroupsFound s found)) !! s = Some sock'
                ∧ user sock' = user sock
                ∧ ∀ room, room ∈ rooms sock'
                          ↔ room ∈ rooms sock
                            ∨ ∃ ids gid, found = Some ids ∧ gid ∈ ids
                                         ∧ room = group_room gid).
Proof.
  destruct found as [ids|].
  - destruct (join_each_spec s ids st)
      as (st' & Hrun & Hreg & Hg & Hm & Hu & Hother & Hdead & Hown).
    unfold next. unfold_m. rewrite Hrun. simpl. split_and!; try done.
    intros sock Hs. destruct (Hown sock Hs) as (sock' & Hs' & Huser & Hrooms).
    exists sock'. split_and!; [done | done |]. intros room. rewrite Hrooms.
    split; (intros [H | H]; [by left | right]).
    + destruct H as (gid & Hin & ->). eauto.
    + destruct H as (ids' & gid & [= <-] & Hin & ->). eauto.
  - unfold next. unfold_m. simpl. split_and!; try done.
    intros sock Hs. exists sock. split_and!; try done.
    intros room. split; [by left |]. by intros [H | (ids & gid & H & _)].
Qed.

Lemma groups_found_sockets (st : State) (s : string) (found : option (list string))
    (s0 : string) :
  match sockets st !! s0, sockets (next st (GroupsFound s found)) !! s0 with
  | Some a, Some b =>
      user b = user a
      ∧ (∀ room, room ∈ rooms a → room ∈ rooms b)
      ∧ (∀ v, user_room v ∈ rooms b ↔ user_room v ∈ rooms a)
  | None, None => True
  | _, _ => False
  end.
Proof.
  destruct (groups_found_effect st s found) as (_ & _ & _ & _ & _ & Hother & Hdead & Hown).
  destruct (decide (s0 = s)) as [-> | Hne].
  - destruct (sockets st !! s) as [a|] eqn:Hs.
    + destruct (Hown a eq_refl) as (b & -> & Huser & Hrooms). split_and!; [done | |].
      * intros room Hin. apply Hrooms. by left.
      * intros v. rewrite Hrooms. split; [| by left].
        intros [H | (ids & gid & _ & _ & H)]; [done |].
        by apply user_room_not_group in H.
    + by rewrite Hdead.
  - rewrite Hother by done. destruct (sockets st !! s0); [| done].
    split_and!; done.
Qed.

(** Every handler but [disconnect] leaves the registry alone, leaves the
    other sockets alone, and on its own socket keeps the user and every room
    except the one a leave is about. *)
Lemma handler_frame (st : State) (s : string) (sock : Socket) (e : Inbound) :
  sockets st !! s = Some sock →
  e ≠ on_disconnect →
  userSockets (next st (On s e)) = userSockets st
  ∧ (∀ s', s' ≠ s → sockets (next st (On s e)) !! s' = sockets st !! s')
  ∧ ∃ sock', sockets (next st (On s e)) !! s = Some sock'
             ∧ user sock' = user sock
             ∧ ∀ room, room ∈ rooms sock → room ∈ rooms sock' ∨ leaves e room.
Proof.
  intros Hs Hne.
  destruct e as [o data | o data | o data | o data | data | data | name o |];
    [.. | done]; [| | | | | | destruct name]; on_socket Hs;
    try (frame Hs; by auto).
  - destruct (truthy (recipientId data)), (truthy (content data)),
      (save_ok o), (populate_ok o); simpl;
      try destruct (isOnline _ _); simpl; frame Hs; auto.
  - destruct (truthy (groupId data)), (truthy (content data)), (find_ok o); simpl;
      try destruct (groups st !! str (groupId data)) as [g|]; simpl;
      try destruct (Group.isMember g _); simpl;
      try destruct (save_ok o); simpl;
      try destruct (populate_ok o); simpl; frame Hs; auto.
  - destruct (truthy (groupId data)), (find_ok o); simpl;
      try destruct (groups st !! str (groupId data)) as [g|]; simpl;
      try destruct (Group.isMember g _); simpl;
      try destruct (save_ok o); simpl; frame Hs; auto.
    intros room Hroom. left. apply elem_of_union. by right.
  - destruct (truthy (groupId data)), (find_ok o); simpl;
      try destruct (groups st !! str (groupId data)) as [g|]; simpl;
      try destruct (Group.isMember g _); simpl;
      try destruct (Group.equals _ _ && _); simpl;
      try destruct (save_ok o); simpl;
      try destruct (length _ =? 0)%nat; simpl;
      try destruct (delete_ok o); simpl; frame Hs; auto.
    all: intros room Hroom;
      destruct (decide (room = group_room (str (groupId data)))) as [-> | Hr];
      [by right | left; apply elem_of_difference; split; [done|];
                  by rewrite elem_of_singleton].
  - destruct (truthy (recipientId data)); simpl; frame Hs; auto.
  - destruct (truthy (groupId data)); simpl; frame Hs; auto.
Qed.

(** ** The connection registry *)

Lemma disconnect_or_not (e : Inbound) : e = on_disconnect ∨ e ≠ on_disconnect.
Proof. destruct e; (by left) || (by right). Qed.

Lemma registry_sound_step (st : State) (i : Input) :
  registry_sound st → admissible st i → registry_sound (next st i).
Proof.
  intros IH Hadm u sid. rewrite connectionsFor_spec.
  destruct i as [s u' | s found | s e].
  - destruct Hadm as [Hfresh _].
    destruct (connect_effect st s u') as (Hreg & Hother & (rs & Hown & _) & _).
    rewrite Hreg. destruct (decide (User._id u' = u)) as [<- | Hne].
    + rewrite lookup_insert_eq. intros [= <-]. eauto.
    + rewrite lookup_insert_ne by done. intros Hsid.
      apply IH, connectionsFor_spec in Hsid as (sock & Hsock & Hu).
      exists sock. split; [| done]. rewrite Hother; [done | congruence].
  - destruct (groups_found_effect st s found) as (_ & Hreg & _).
    rewrite Hreg. intros Hsid.
    apply IH, connectionsFor_spec in Hsid as (sock & Hsock & Hu).
    pose proof (groups_found_sockets st s found sid) as Hsocks. rewrite Hsock in Hsocks.
    destruct (sockets (next st (GroupsFound s found)) !! sid) as [sock'|]; [| done].
    destruct Hsocks as (Huser & _). exists sock'. split; [done | congruence].
  - destruct (sockets st !! s) as [sock|] eqn:Hs.
    2:{ rewrite next_not_live by done. intros Hsid. by apply connectionsFor_spec, IH. }
    destruct (disconnect_or_not e) as [-> | He].
    + unfold next. rewrite (disconnect_effect st s sock Hs). simpl.
      destruct (decide (User._id (user sock) = u)) as [<- | Hne].
      * by rewrite lookup_delete_eq.
      * rewrite lookup_delete_ne by done. intros Hsid.
        apply IH, connectionsFor_spec in Hsid as (sock' & Hsock' & Hu).
        exists sock'. split; [| done]. rewrite lookup_delete_ne; [done | congruence].
    + destruct (handler_frame st s sock e Hs He) as (Hreg & Hother & sock' & Hown & Huser & _).
      rewrite Hreg. intros Hsid.
      apply IH, connectionsFor_spec in Hsid as (sock0 & Hsock0 & Hu).
      destruct (decide (sid = s)) as [-> | Hne].
      * exists sock'. split; [done|]. rewrite Huser. congruence.
      * exists sock0. split; [| done]. by rewrite Hother.
Qed.

Lemma registry_sound_reachable (st : State) : reachable st → registry_sound st.
Proof.
  induction 1 as [st [Hreg _] | st i _ IH Hadm | st gs ms us _ IH].
  - intros u sid. rewrite Hreg, lookup_empty. discriminate.
  - by apply registry_sound_step.
  - exact IH.
Qed.

(** X23: the registry holds one socket id per identity.  In every reachable
    state an entry names a live connection of its identity.  A handshake
    makes the new socket the identity's entry, leaves the identity online,
    keeps its earlier connections live and broadcasts one [online] event; the
    disconnection of a live socket removes the entry of its identity and
    broadcasts one [offline] event; no other input changes what [isOnline]
    answers for an identity. *)
Theorem registry_follows_latest_connection (st : State) :
  reachable st →
  registry_sound st
  ∧ (∀ s u, admissible st (Connect s u) →
       let st' := next st (Connect s u) in
       userSockets st' !! User._id u = Some s
       ∧ isOnline st' (User._id u) = true
       ∧ connectionsFor st' (User._id u) = {[s]} ∪ connectionsFor st (User._id u)
       ∧ trace st (Connect s u) = [Emit ToAll (UserStatus (User._id u) "online")])
  ∧ (∀ s sock, sockets st !! s = Some sock →
       let u := User._id (user sock) in
       let st' := next st (On s on_disconnect) in
       isOnline st' u = false
       ∧ connectionsFor st' u = connectionsFor st u ∖ {[s]}
       ∧ trace st (On s on_disconnect) = [Emit ToAll (UserStatus u "offline")])
  ∧ (∀ u i, ¬ presence_input st u i → isOnline (next st i) u = isOnline st u).
Proof.
  intros Hreach. split_and!.
  - by apply registry_sound_reachable.
  - intros s u [Hfresh _] st'. subst st'.
    destruct (connect_effect st s u) as (Hreg & Hother & (rs & Hown & _) & Htrace).
    split_and!; [| | | done].
    + by rewrite Hreg, lookup_insert_eq.
    + unfold isOnline. rewrite Hreg, lookup_insert_eq. by apply bool_decide_eq_true.
    + apply set_eq. intros x. rewrite elem_of_union, elem_of_singleton.
      rewrite !connectionsFor_spec. split.
      * intros (sock & Hsock & Hu). destruct (decide (x = s)) as [-> | Hne]; [by left|].
        right. rewrite Hother in Hsock by done. eauto.
      * intros [-> | (sock & Hsock & Hu)]; [eauto|].
        exists sock. split; [| done]. rewrite Hother; [done | congruence].
  - intros s sock Hs u st'. subst st'. unfold next, trace.
    rewrite (disconnect_effect st s sock Hs). simpl. fold u. split_and!; [| | done].
    + unfold isOnline. simpl. rewrite lookup_delete_eq.
      apply bool_decide_eq_false. by intros [? ?].
    + apply set_eq. intros x. rewrite elem_of_difference, elem_of_singleton.
      rewrite !connectionsFor_spec. simpl. split.
      * intros (sock' & Hsock & Hu). apply lookup_delete_Some in Hsock as [Hne Hsock].
        split; [eauto | congruence].
      * intros [(sock' & Hsock & Hu) Hne]. exists sock'.
        split; [| done]. by rewrite lookup_delete_ne.
  - intros u i Hnot. unfold isOnline. destruct i as [s u' | s found | s e]; simpl in Hnot.
    + destruct (connect_effect st s u') as (Hreg & _).
      by rewrite Hreg, lookup_insert_ne.
    + destruct (groups_found_effect st s found) as (_ & Hreg & _). by rewrite Hreg.
    + destruct (sockets st !! s) as [sock|] eqn:Hs; [| by rewrite next_not_live].
      destruct (disconnect_or_not e) as [-> | He].
      * unfold next. rewrite (disconnect_effect st s sock Hs). simpl.
        rewrite lookup_delete_ne; [done|]. intros Hu. apply Hnot.
        apply connectionsFor_spec. eauto.
      * destruct (handler_frame st s sock e Hs He) as (Hreg & _). by rewrite Hreg.
Qed.

Lemma reachable_db : reachable db.
Proof. apply reach_start. by split. Qed.

Lemma reachable_two_tabs : reachable two_tabs.
Proof.
  apply (reach_step (next db (Connect "s1" alice)) (Connect "s2" alice)).
  - apply reach_step; [apply reachable_db |]. by split.
  - split; vm_compute; reflexivity.
Qed.

Lemma reachable_with_bob : reachable with_bob.
Proof.
  apply (reach_step (next two_tabs (Connect "s3" bob))
           (GroupsFound "s3" (Some (Group_find two_tabs "b2")))); [| done].
  apply reach_step; [apply reachable_two_tabs |]. split; vm_compute; reflexivity.
Qed.

Lemma registry_follows_latest_connection_witness :
  registry_sound two_tabs
  ∧ isOnline (next two_tabs (On "s2" on_disconnect)) "a1" = false.
Proof.
  destruct (registry_follows_latest_connection two_tabs reachable_two_tabs)
    as (Hsound & _ & Hclose & _).
  split; [exact Hsound |].
  apply (Hclose "s2" (mkSocket alice {[user_room "a1"]})).
  vm_compute. reflexivity.
Defined.

(** C1: the code at the failing input.  Alice has two live connections and
    Bob one.  Closing Alice's first connection removes her registry entry
    and broadcasts [offline] although her second connection is still open;
    [isOnline] then answers false for her, and a direct message Bob sends her
    is saved and acknowledged but not sent to her room, where her open
    connection is waiting. *)
Theorem offline_with_live_connection :
  let st := next with_bob (On "s1" on_disconnect) in
  let hello := On "s3" (on_direct_message all_ok (msg (Some "a1") None (Some "hi"))) in
  reachable with_bob
  ∧ connectionsFor with_bob "a1" = {["s1"; "s2"]}
  ∧ trace with_bob (On "s1" on_disconnect) = [Emit ToAll (UserStatus "a1" "offline")]
  ∧ connectionsFor st "a1" = {["s2"]}
  ∧ isOnline st "a1" = false
  ∧ recipients st (ToRoom (user_room "a1")) = {["s2"]}
  ∧ trace st hello
    = [SaveMessage (Message.mk 0 "b2" (Some "a1") None "hi");
       Emit (ToSocket "s3") (MessageSent 0)].
Proof. split; [apply reachable_with_bob | vm_compute; done]. Qed.

(** ** Room subscriptions *)

Lemma keeps_step (st : State) (s gid : string) (i : Input) :
  s ∈ in_room (group_room gid) st → keeps s gid i →
  s ∈ in_room (group_room gid) (next st i).
Proof.
  rewrite !in_room_spec. intros (sock & Hsock & Hroom) Hkeep.
  destruct i as [s' u | s' found | s' e].
  - simpl in Hkeep. destruct (connect_effect st s' u) as (_ & Hother & _).
    exists sock. split; [| done]. by rewrite Hother.
  - pose proof (groups_found_sockets st s' found s) as Hsocks. rewrite Hsock in Hsocks.
    destruct (sockets (next st (GroupsFound s' found)) !! s) as [sock1|]; [| done].
    destruct Hsocks as (_ & Hsub & _). exists sock1. split; [done | by apply Hsub].
  - destruct (sockets st !! s') as [sock'|] eqn:Hs'.
    2:{ rewrite next_not_live by done. eauto. }
    destruct (disconnect_or_not e) as [-> | He].
    + simpl in Hkeep. unfold next. rewrite (disconnect_effect st s' sock' Hs'). simpl.
      exists sock. split; [| done]. by rewrite lookup_delete_ne.
    + destruct (handler_frame st s' sock' e Hs' He) as (_ & Hother & sock1 & Hown & _ & Hrooms).
      destruct (decide (s = s')) as [-> | Hne].
      * exists sock1. split; [done|].
        assert (sock' = sock) as -> by congruence.
        destruct (Hrooms _ Hroom) as [Hin | Hleft]; [done|].
        destruct e; simpl in Hleft; try done.
        apply room_of_group_inj in Hleft. simpl in Hkeep. destruct Hkeep; congruence.
      * exists sock. split; [| done]. by rewrite Hother.
Qed.

Lemma keeps_run (s gid : string) (inputs : list Input) :
  ∀ st, s ∈ in_room (group_room gid) st → Forall (keeps s gid) inputs →
        s ∈ in_room (group_room gid) (run inputs st).
Proof.
  induction inputs as [|i inputs IH]; intros st Hin Hall; [done|].
  apply Forall_cons in Hall as [Hi Hall]. simpl.
  apply IH; [| done]. by apply keeps_step.
Qed.

(** C4, as the code has it: a join that goes through makes the identity a
    member of the stored group and subscribes the socket that sent the join
    to the group's room; no other socket is touched, so another live
    connection of the same identity is not added to the fan-out set by the
    join.  The joining socket stays in the fan-out set through every later
    input other than its own leave of that group and its own disconnection. *)
Theorem join_subscribes_issuing_socket (st : State) (s : string) (sock : Socket)
    (o : Outcomes) (data : Data) (g : Group.t) :
  sockets st !! s = Some sock →
  truthy (groupId data) = true → find_ok o = true → save_ok o = true →
  let u := User._id (user sock) in
  let gid := str (groupId data) in
  groups st !! gid = Some g →
  Group.isMember g u = false →
  let st' := next st (On s (on_join_group o data)) in
  (∃ g', groups st' !! gid = Some g' ∧ Group.isMember g' u = true)
  ∧ s ∈ recipients st' (ToRoom (group_room gid))
  ∧ (∀ s', s' ≠ s → sockets st' !! s' = sockets st !! s')
  ∧ (∀ s' room, s' ≠ s → (s' ∈ recipients st' (ToRoom room) ↔ s' ∈ recipients st (ToRoom room)))
  ∧ (∀ inputs, Forall (keeps s gid) inputs →
       s ∈ recipients (run inputs st') (ToRoom (group_room gid))).
Proof.
  intros Hs Hgid Hfind Hsave u gid Hg Hnot st'.
  assert (Hst' : st' = set_sockets (alter (add_room (group_room gid)) s)
                         (set_groups (insert gid (Group.addMember g u)) st)).
  { subst st'. on_socket Hs. rewrite Hgid, Hfind. simpl. fold gid. rewrite Hg. simpl.
    fold u. rewrite Hnot, Hsave. done. }
  assert (Hin : s ∈ in_room (group_room gid) st').
  { apply in_room_spec. rewrite Hst'. simpl. rewrite lookup_alter_eq, Hs. simpl.
    eexists. split; [done|]. simpl. apply elem_of_union. left. by apply elem_of_singleton. }
  assert (Hother : ∀ s', s' ≠ s → sockets st' !! s' = sockets st !! s').
  { intros s' Hne. rewrite Hst'. simpl. by rewrite lookup_alter_ne. }
  split_and!.
  - exists (Group.addMember g u). split; [| apply addMember_isMember].
    rewrite Hst'. simpl. apply lookup_insert_eq.
  - exact Hin.
  - exact Hother.
  - intros s' room Hne. simpl. rewrite !in_room_spec. by rewrite Hother.
  - intros inputs Hall. simpl. by apply keeps_run.
Qed.

Lemma join_subscribes_issuing_socket_witness :
  "s1" ∈ recipients joined (ToRoom (group_room "g1"))
  ∧ "s1" ∈ recipients (run [On "s2" on_disconnect] joined) (ToRoom (group_room "g1")).
Proof.
  assert (H1 : sockets with_bob !! "s1" = Some (mkSocket alice {[user_room "a1"]}))
    by (vm_compute; reflexivity).
  assert (H2 : groups with_bob !! "g1" = Some club) by (vm_compute; reflexivity).
  destruct (join_subscribes_issuing_socket with_bob "s1" _ all_ok
              (msg None (Some "g1") None) club H1 eq_refl eq_refl eq_refl H2 eq_refl)
    as (_ & Hin & _ & _ & Hkeep).
  split; [exact Hin |].
  apply Hkeep. apply Forall_cons. split; [discriminate | apply Forall_nil_2].
Defined.

(** C4 fails as stated: Alice joins the group from her first connection;
    she is then a member, her second connection is live, and the room's
    fan-out set holds only the first. *)
Lemma join_misses_other_connection :
  let st' := next two_tabs (On "s1" join_g1) in
  groups st' !! "g1" = Some (Group.addMember club "a1")
  ∧ Group.isMember (Group.addMember club "a1") "a1" = true
  ∧ connectionsFor st' "a1" = {["s1"; "s2"]}
  ∧ recipients st' (ToRoom (group_room "g1")) = {["s1"]}.
Proof. vm_compute. done. Qed.

(** ** More on the Group model *)

(** X1: [addMember] never lists a user twice: adding a member changes
    nothing, adding twice is adding once, and a duplicate-free list stays
    duplicate-free. *)
Theorem addMember_idempotent (g : Group.t) (u : string) :
  Group.addMember (Group.addMember g u) u = Group.addMember g u
  ∧ (Group.isMember g u = true → Group.addMember g u = g)
  ∧ (NoDup (Group.members g) → NoDup (Group.members (Group.addMember g u))).
Proof.
  split_and!.
  - unfold Group.addMember at 1. by rewrite addMember_isMember.
  - intros H. unfold Group.addMember. by rewrite H.
  - intros Hnd. unfold Group.addMember.
    destruct (Group.isMember g u) eqn:E; simpl; [done|].
    apply NoDup_app. split_and!; [done | | apply NoDup_singleton].
    intros x Hx Hxu. apply list_elem_of_singleton in Hxu as ->.
    by apply isMember_false in E.
Qed.

Lemma addMember_idempotent_witness :
  Group.addMember club "b2" = club
  ∧ NoDup (Group.members (Group.addMember club "a1")).
Proof.
  destruct (addMember_idempotent club "b2") as (_ & Hsame & _).
  destruct (addMember_idempotent club "a1") as (_ & _ & Hnd).
  split; [by apply Hsame |].
  apply Hnd. simpl. apply NoDup_singleton.
Defined.

(** X2: [addMember] only appends to the members list: the old list is a
    prefix of the new one, nobody else's membership changes, and name,
    description, creator and creation date are untouched. *)
Theorem addMember_frame (g : Group.t) (u : string) :
  let g' := Group.addMember g u in
  Group.members g `prefix_of` Group.members g'
  ∧ (∀ v, v ≠ u → Group.isMember g' v = Group.isMember g v)
  ∧ Group.name g' = Group.name g
  ∧ Group.description g' = Group.description g
  ∧ Group.creator g' = Group.creator g
  ∧ Group.createdAt g' = Group.createdAt g.
Proof.
  simpl. unfold Group.addMember.
  destruct (Group.isMember g u) eqn:E; simpl; split_and!; try done.
  - by exists [u].
  - intros v Hne. unfold Group.isMember. simpl.
    rewrite existsb_app. simpl. rewrite (equals_ne u v) by done.
    by rewrite !orb_false_r.
Qed.

(** X3: adding a user who was not a member and removing them again gives
    the group document back. *)
Theorem removeMember_addMember (g : Group.t) (u : string) :
  Group.isMember g u = false →
  Group.removeMember (Group.addMember g u) u = g.
Proof.
  intros H. unfold Group.addMember. rewrite H. simpl.
  unfold Group.removeMember, Group.set_members. simpl.
  rewrite filter_app, keep_others by (by apply isMember_false).
  rewrite filter_cons_False by (rewrite equals_refl; auto).
  rewrite filter_nil, app_nil_r. by destruct g.
Qed.

Lemma removeMember_addMember_witness :
  Group.removeMember (Group.addMember club "a1") "a1" = club.
Proof. apply (removeMember_addMember club "a1"). reflexivity. Defined.

(** X4: removals compose: removing a user twice is removing them once, and
    two removals give the same document in either order. *)
Theorem removeMember_compose (g : Group.t) (u v : string) :
  Group.removeMember (Group.removeMember g u) u = Group.removeMember g u
  ∧ Group.removeMember (Group.removeMember g u) v
    = Group.removeMember (Group.removeMember g v) u.
Proof.
  unfold Group.removeMember, Group.set_members. simpl. split; f_equal.
  - apply keep_others. rewrite list_elem_of_filter. intros [H _].
    by rewrite equals_refl in H.
  - induction (Group.members g) as [|m l IH]; [done|].
    destruct (Group.equals m u) eqn:Eu, (Group.equals m v) eqn:Ev.
    + rewrite !(filter_cons_False _ m) by (rewrite ?Eu, ?Ev; auto). done.
    + rewrite (filter_cons_False _ m l) by (rewrite Eu; auto).
      rewrite (filter_cons_True _ m l) by (by rewrite Ev).
      rewrite (filter_cons_False _ m) by (rewrite Eu; auto). done.
    + rewrite (filter_cons_True _ m l) by (by rewrite Eu).
      rewrite (filter_cons_False _ m) by (rewrite Ev; auto).
      rewrite (filter_cons_False _ m l) by (rewrite Ev; auto). done.
    + rewrite (filter_cons_True _ m l) by (by rewrite Eu).
      rewrite (filter_cons_True _ m) by (by rewrite Ev).
      rewrite (filter_cons_True _ m l) by (by rewrite Ev).
      rewrite (filter_cons_True _ m) by (by rewrite Eu). by rewrite IH.
Qed.

(** ** What no handler does *)


(** X5: the connection callback, the resumed [joinUserGroups], the
    disconnect handler and the message, join and leave handlers never end in
    an uncaught exception, whatever store call is rejected and whether or
    not the event has a payload.  The two typing handlers, which have no
    [try], end in one exactly when the event has no payload; they have then
    emitted nothing and changed nothing. *)
Theorem handlers_catch_everything (st : State) (i : Input) :
  (outcome st i = Thrown ↔ bare_typing st i)
  ∧ (¬ bare_typing st i → outcome st i = Done tt)
  ∧ (bare_typing st i → next st i = st ∧ trace st i = []).
Proof.
  unfold outcome. destruct i as [s u | s found | s e].
  - unfold_m. simpl. split_and!; [split; [discriminate | done] | done | done].
  - destruct (groups_found_effect st s found) as (-> & _). simpl.
    split_and!; [split; [discriminate | done] | done | done].
  - destruct (sockets st !! s) as [sock|] eqn:Hs.
    + events e; simpl; rewrite ?Hs; on_socket Hs; crunch;
        (split_and!; [split | |]); eauto; try done; try discriminate;
        intros H; by destruct H.
    + events e; simpl; rewrite ?Hs; unfold next, trace; unfold_m; rewrite Hs; simpl;
        (split_and!; [split | |]); try done; try discriminate;
        intros [? ?]; discriminate.
Qed.

Lemma handlers_catch_everything_witness :
  outcome two_tabs (On "s1" (on_bare join_group_event all_ok)) = Done tt
  ∧ next two_tabs (On "s1" (on_bare typing_event all_ok)) = two_tabs.
Proof.
  destruct (handlers_catch_everything two_tabs (On "s1" (on_bare join_group_event all_ok)))
    as (_ & Hdone & _).
  destruct (handlers_catch_everything two_tabs (On "s1" (on_bare typing_event all_ok)))
    as (_ & _ & Hbare).
  split.
  - apply Hdone. simpl. tauto.
  - apply Hbare. simpl. vm_compute. eauto.
Defined.

(** X6: an error event is only ever sent to the socket whose event caused
    it; the connection callback sends none. *)
Theorem errors_go_to_sender (st : State) (i : Input) (t : Target) (m : string) :
  Emit t (Error m) ∈ trace st i →
  ∃ s e, i = On s e ∧ t = ToSocket s.
Proof.
  destruct i as [s u | s found | s e].
  - unfold trace. unfold_m. simpl. intros H; in_trace H.
  - unfold trace. destruct (groups_found_effect st s found) as (-> & _). simpl.
    intros H. by apply elem_of_nil in H.
  - intros H. exists s, e. split; [done|]. revert H.
    destruct (sockets st !! s) as [sock|] eqn:Hs.
    2:{ unfold trace. unfold_m. rewrite Hs. simpl. intros H. in_trace H. }
    events e; on_socket Hs; crunch; intros H; in_trace H; congruence.
Qed.

Lemma errors_go_to_sender_witness :
  ∃ s e, On "s1" (on_join_group all_ok (msg None None None)) = On s e
         ∧ ToSocket "s1" = ToSocket s.
Proof.
  apply (errors_go_to_sender two_tabs _ (ToSocket "s1") "Group ID is required").
  vm_compute. apply elem_of_cons. by left.
Defined.

(** X7: the socket service never touches the User collection, only appends
    to the Message collection, and writes the Group collection in the join
    and leave handlers only. *)
Theorem collections_frame (st : State) (i : Input) :
  users (next st i) = users st
  ∧ messages st `prefix_of` messages (next st i)
  ∧ (writes_groups i = false → groups (next st i) = groups st).
Proof.
  destruct i as [s u | s found | s e].
  - unfold next. unfold_m. simpl. done.
  - destruct (groups_found_effect st s found) as (_ & _ & Hg & Hm & Hu & _).
    by rewrite Hg, Hm, Hu.
  - destruct (sockets st !! s) as [sock|] eqn:Hs.
    2:{ by rewrite next_not_live. }
    events e; on_socket Hs; crunch; split_and!;
      try done; try (by apply prefix_app_r).
Qed.

Lemma collections_frame_witness :
  groups (next two_tabs (On "s1" on_disconnect)) = groups two_tabs.
Proof.
  apply (collections_frame two_tabs (On "s1" on_disconnect)). reflexivity.
Defined.



(** ** The rooms of a socket *)


(** The socket a handshake creates is in its own user's personal room only. *)
Lemma connect_personal (st : State) (s : string) (u : User.t) :
  ∃ rs, sockets (next st (Connect s u)) !! s = Some (mkSocket u rs)
        ∧ ∀ room, room ∈ rs ↔ room = user_room (User._id u).
Proof.
  unfold next. unfold_m. simpl. rewrite lookup_alter_eq, lookup_insert_eq.
  unfold add_room. simpl. eexists. split; [done|]. intros room.
  rewrite elem_of_union, elem_of_singleton. split; [| by left].
  intros [H | H]; [done | by apply elem_of_empty in H].
Qed.



(** No handler adds or removes a personal room. *)
Lemma handler_personal_rooms (st : State) (s : string) (sock : Socket) (e : Inbound) :
  sockets st !! s = Some sock →
  e ≠ on_disconnect →
  ∃ sock', sockets (next st (On s e)) !! s = Some sock'
           ∧ user sock' = user sock
           ∧ ∀ v, user_room v ∈ rooms sock' ↔ user_room v ∈ rooms sock.
Proof.
  intros Hs Hne. events e; [.. | done]; on_socket Hs; crunch;
    rewrite ?lookup_alter_eq, ?Hs; simpl;
    (eexists; split_and!; [reflexivity | done |]); intros v; simpl; try done.
  all: first
    [ rewrite elem_of_union, elem_of_singleton; split; [| by right];
      intros [H | H]; [by apply user_room_not_group in H | done]
    | rewrite elem_of_difference, elem_of_singleton; split; [by intros [? _] |];
      intros H; split; [done | apply user_room_not_group] ].
Qed.

Lemma personal_rooms_step (st : State) (i : Input) :
  personal_rooms st → personal_rooms (next st i).
Proof.
  intros Hinv s0 sock0 Hs0 v. destruct i as [s u | s found | s e].
  - destruct (decide (s0 = s)) as [-> | Hne].
    + destruct (connect_personal st s u) as (rs & Hown & Hpersonal).
      rewrite Hown in Hs0. injection Hs0 as <-. simpl. rewrite Hpersonal.
      split; [apply user_room_inj | by intros ->].
    + destruct (connect_effect st s u) as (_ & Hother & _).
      rewrite Hother in Hs0 by done. by apply (Hinv s0).
  - pose proof (groups_found_sockets st s found s0) as Hsocks. rewrite Hs0 in Hsocks.
    destruct (sockets st !! s0) as [a|] eqn:Ha; [| done].
    destruct Hsocks as (Huser & _ & Hpersonal). rewrite Hpersonal, Huser.
    by apply (Hinv s0).
  - destruct (sockets st !! s) as [sock|] eqn:Hs.
    2:{ rewrite next_not_live in Hs0 by done. by apply (Hinv s0). }
    destruct (disconnect_or_not e) as [-> | He].
    + unfold next in Hs0. rewrite (disconnect_effect st s sock Hs) in Hs0. simpl in Hs0.
      apply lookup_delete_Some in Hs0 as [_ Hs0]. by apply (Hinv s0).
    + destruct (decide (s0 = s)) as [-> | Hne].
      * destruct (handler_personal_rooms st s sock e Hs He) as (sock' & Hown & Huser & Hrooms).
        rewrite Hown in Hs0. injection Hs0 as <-. rewrite Hrooms, Huser.
        by apply (Hinv s).
      * destruct (handler_frame st s sock e Hs He) as (_ & Hother & _).
        rewrite Hother in Hs0 by done. by apply (Hinv s0).
Qed.

Lemma personal_rooms_reachable (st : State) : reachable st → personal_rooms st.
Proof.
  induction 1 as [st [_ Hsock] | st i _ IH _ | st gs ms us _ IH].
  - intros s sock. rewrite Hsock, lookup_empty. discriminate.
  - by apply personal_rooms_step.
  - exact IH.
Qed.

(** X10: in every reachable state the personal room of an identity holds
    exactly the live connections of that identity, so whatever is emitted to
    that room (a direct message, a typing indicator) reaches all of them and
    nobody else. *)
Theorem personal_room_is_connections (st : State) (u : string) :
  reachable st →
  recipients st (ToRoom (user_room u)) = connectionsFor st u.
Proof.
  intros Hreach. apply personal_rooms_reachable in Hreach.
  apply set_eq. intros s. simpl. rewrite in_room_spec, connectionsFor_spec.
  split; intros (sock & Hs & H); exists sock; (split; [done|]).
  - symmetry. by apply (Hreach s sock Hs).
  - by apply (Hreach s sock Hs).
Qed.

Lemma personal_room_is_connections_witness :
  recipients two_tabs (ToRoom (user_room "a1")) = connectionsFor two_tabs "a1".
Proof. apply (personal_room_is_connections two_tabs "a1"), reachable_two_tabs. Defined.

(** X11: a connection of an identity the registry does not list, closed
    again before anything else happens, leaves the server state exactly as
    it was, after one [online] and one [offline] broadcast. *)
Theorem connect_disconnect (st : State) (s : string) (u : User.t) :
  sockets st !! s = None →
  userSockets st !! User._id u = None →
  run [Connect s u; On s on_disconnect] st = st
  ∧ trace st (Connect s u) ++ trace (next st (Connect s u)) (On s on_disconnect)
    = [Emit ToAll (UserStatus (User._id u) "online");
       Emit ToAll (UserStatus (User._id u) "offline")].
Proof.
  intros Hs Hu.
  destruct (connect_effect st s u) as (_ & _ & (rs & Hown & _) & Htrace).
  rewrite Htrace. unfold trace, run. simpl foldl. unfold next at 1.
  change ((handle (Connect s u) st).1.2) with (next st (Connect s u)).
  rewrite (disconnect_effect _ s _ Hown). simpl. split; [| done].
  unfold next. unfold_m. simpl.
  unfold set_userSockets, set_sockets; simpl; destruct st; simpl in *; f_equal;
    rewrite ?delete_alter_eq; by apply delete_insert_id.
Qed.

Lemma connect_disconnect_witness :
  run [Connect "s9" bob; On "s9" on_disconnect] two_tabs = two_tabs.
Proof.
  apply (connect_disconnect two_tabs "s9" bob); vm_compute; reflexivity.
Defined.

(** ** The message and membership handlers, path by path *)



(** X13: when a message has been saved and the [populate] that follows is
    rejected, the message stays in the collection, nobody receives it, and
    the sender is told the send failed. *)
Theorem populate_rejected (st : State) (s : string) (sock : Socket)
    (o : Outcomes) (data : Data) (e : Inbound) (m : Message.t) :
  sockets st !! s = Some sock →
  e = on_direct_message o data ∨ e = on_group_message o data →
  SaveMessage m ∈ trace st (On s e) →
  populate_ok o = false →
  messages (next st (On s e)) = messages st ++ [m]
  ∧ ∃ text, trace st (On s e) = [SaveMessage m; Emit (ToSocket s) (Error text)]
            ∧ (text = "Failed to send message" ∨ text = "Failed to send group message").
Proof.
  intros Hs [-> | ->]; on_socket Hs; crunch; intros H Hpop; in_trace H;
    try discriminate Hpop; injection H as ->; eauto.
Qed.

Lemma populate_rejected_witness :
  let i := On "s1" (on_direct_message (mkOutcomes true true false true)
                      (msg (Some "b2") None (Some "hi"))) in
  messages (next with_bob i) = messages with_bob ++ [Message.mk 0 "a1" (Some "b2") None "hi"].
Proof.
  apply (populate_rejected with_bob "s1" (mkSocket alice {[user_room "a1"]})
           (mkOutcomes true true false true) (msg (Some "b2") None (Some "hi"))).
  - vm_compute. reflexivity.
  - left. reflexivity.
  - vm_compute. apply elem_of_cons. by left.
  - reflexivity.
Defined.

(** X14: a group message, join or leave that names a group the collection
    does not hold is answered with "Group not found", to the sender only, and
    changes nothing. *)
Theorem group_not_found (st : State) (s : string) (sock : Socket)
    (o : Outcomes) (data : Data) :
  sockets st !! s = Some sock →
  truthy (groupId data) = true → find_ok o = true →
  groups st !! str (groupId data) = None →
  let answer := (Done tt, st, [Emit (ToSocket s) (Error "Group not found")]) in
  (truthy (content data) = true →
   handle (On s (on_group_message o data)) st = answer)
  ∧ handle (On s (on_join_group o data)) st = answer
  ∧ handle (On s (on_leave_group o data)) st = answer.
Proof.
  intros Hs Hgid Hfind Hg. simpl. split_and!; [intros Hc | |];
    unfold_m; rewrite Hs; simpl; rewrite Hgid, ?Hc, Hfind; simpl; by rewrite Hg.
Qed.

Lemma group_not_found_witness :
  handle (On "s1" (on_join_group all_ok (msg None (Some "nope") None))) two_tabs
  = (Done tt, two_tabs, [Emit (ToSocket "s1") (Error "Group not found")]).
Proof.
  apply (group_not_found two_tabs "s1" (mkSocket alice {[user_room "a1"]}) all_ok
           (msg None (Some "nope") None)); vm_compute; reflexivity.
Defined.

(** X15: a join that is answered with an error has changed nothing: neither
    the group, nor the socket's rooms, nor anything else. *)
Theorem join_error_changes_nothing (st : State) (s : string)
    (o : Outcomes) (data : Data) :
  existsb is_error (trace st (On s (on_join_group o data))) = true →
  next st (On s (on_join_group o data)) = st.
Proof.
  destruct (sockets st !! s) as [sock|] eqn:Hs; [| by rewrite next_not_live].
  on_socket Hs; crunch; intros H; done.
Qed.

Lemma join_error_changes_nothing_witness :
  next with_bob (On "s1" (on_join_group (mkOutcomes true false true true)
                            (msg None (Some "g1") None))) = with_bob.
Proof.
  apply (join_error_changes_nothing with_bob "s1"). vm_compute. reflexivity.
Defined.

Lemma others_remain (g : Group.t) (u v : string) :
  v ∈ Group.members g → v ≠ u → v ∈ Group.members (Group.removeMember g u).
Proof.
  intros Hv Hne. simpl. apply list_elem_of_filter. split; [| done].
  by rewrite equals_ne.
Qed.

Lemma nonempty_length {A} (l : list A) (x : A) : x ∈ l → (length l =? 0)%nat = false.
Proof. destruct l; [by intros H%elem_of_nil | done]. Qed.

Lemma live_recipient (st : State) (s : string) (sock : Socket) :
  sockets st !! s = Some sock → recipients st (ToSocket s) = {[s]}.
Proof.
  intros Hs. simpl. rewrite decide_True; [done|]. apply elem_of_dom. eauto.
Qed.

(** X16: a join that goes through saves the group with the user appended,
    subscribes the socket, then announces [member_joined] to the group's
    room, and that emission already reaches the joining socket, then
    confirms to the sender with the group's name. *)
Theorem join_group_announced (st : State) (s : string) (sock : Socket)
    (o : Outcomes) (data : Data) (g : Group.t) :
  sockets st !! s = Some sock →
  truthy (groupId data) = true → find_ok o = true → save_ok o = true →
  let u := User._id (user sock) in
  let gid := str (groupId data) in
  let i := On s (on_join_group o data) in
  groups st !! gid = Some g →
  Group.isMember g u = false →
  trace st i
  = [SaveGroup gid (Group.addMember g u);
     Emit (ToRoom (group_room gid)) (GroupUpdate "member_joined" gid u);
     Emit (ToSocket s) (GroupJoined gid (Group.name g))]
  ∧ Group.members (Group.addMember g u) = Group.members g ++ [u]
  ∧ (∃ audience,
       deliveries st i
       = [(audience, GroupUpdate "member_joined" gid u);
          ({[s]}, GroupJoined gid (Group.name g))]
       ∧ s ∈ audience
       ∧ ∀ s', s' ≠ s → (s' ∈ audience ↔ s' ∈ in_room (group_room gid) st))
  ∧ s ∈ recipients (next st i) (ToRoom (group_room gid)).
Proof.
  intros Hs Hgid Hfind Hsave u gid i Hg Hnot. subst i.
  set (st' := set_sockets (alter (add_room (group_room gid)) s)
                (set_groups (insert gid (Group.addMember g u)) st)).
  assert (Hs' : sockets st' !! s = Some (add_room (group_room gid) sock)).
  { simpl. by rewrite lookup_alter_eq, Hs. }
  assert (Hin : s ∈ in_room (group_room gid) st').
  { apply in_room_spec. eexists. split; [exact Hs' |]. simpl.
    apply elem_of_union. left. by apply elem_of_singleton. }
  assert (Hname : Group.name (Group.addMember g u) = Group.name g).
  { unfold Group.addMember. by rewrite Hnot. }
  split_and!.
  - on_socket Hs. rewrite Hgid, Hfind. simpl. fold gid. rewrite Hg. simpl.
    fold u. rewrite Hnot, Hsave. simpl. by rewrite Hname.
  - by apply addMember_members.
  - exists (in_room (group_room gid) st'). split_and!; [| done |].
    + unfold deliveries. unfold_m. rewrite Hs. simpl. rewrite Hgid, Hfind. simpl.
      fold gid. rewrite Hg. simpl. fold u. rewrite Hnot, Hsave. simpl. fold st'.
      rewrite decide_True by (apply elem_of_dom; eauto). by rewrite Hname.
    + intros s0 Hne. rewrite !in_room_spec. subst st'. simpl.
      by rewrite lookup_alter_ne.
  - simpl. apply in_room_spec. on_socket Hs. rewrite Hgid, Hfind. simpl. fold gid.
    rewrite Hg. simpl. fold u. rewrite Hnot, Hsave. simpl.
    rewrite lookup_alter_eq, Hs. simpl. eexists. split; [done|]. simpl.
    apply elem_of_union. left. by apply elem_of_singleton.
Qed.

Lemma join_group_announced_witness :
  trace with_bob (On "s1" join_g1)
  = [SaveGroup "g1" (Group.addMember club "a1");
     Emit (ToRoom (group_room "g1")) (GroupUpdate "member_joined" "g1" "a1");
     Emit (ToSocket "s1") (GroupJoined "g1" "club")].
Proof.
  apply (join_group_announced with_bob "s1" (mkSocket alice {[user_room "a1"]}) all_ok
           (msg None (Some "g1") None) club); reflexivity.
Defined.

(** X17: a member who is not the creator leaves a group in which somebody
    else remains: the group is saved without them and kept, the others stay
    members, the socket leaves the room, then [member_left] goes to the
    group's room, and that emission no longer reaches the leaving socket,
    then the sender gets the confirmation. *)
Theorem leave_group_member (st : State) (s : string) (sock : Socket)
    (o : Outcomes) (data : Data) (g : Group.t) (v : string) :
  sockets st !! s = Some sock →
  truthy (groupId data) = true → find_ok o = true → save_ok o = true →
  let u := User._id (user sock) in
  let gid := str (groupId data) in
  let i := On s (on_leave_group o data) in
  groups st !! gid = Some g →
  u ∈ Group.members g → Group.creator g ≠ u →
  v ∈ Group.members g → v ≠ u →
  groups (next st i) !! gid = Some (Group.removeMember g u)
  ∧ v ∈ Group.members (Group.removeMember g u)
  ∧ trace st i
    = [SaveGroup gid (Group.removeMember g u);
       Emit (ToRoom (group_room gid)) (GroupUpdate "member_left" gid u);
       Emit (ToSocket s) (GroupLeft gid (Group.name g))]
  ∧ (∃ audience,
       deliveries st i
       = [(audience, GroupUpdate "member_left" gid u);
          ({[s]}, GroupLeft gid (Group.name g))]
       ∧ (s ∉ audience)
       ∧ ∀ s', s' ≠ s → (s' ∈ audience ↔ s' ∈ in_room (group_room gid) st))
  ∧ s ∉ recipients (next st i) (ToRoom (group_room gid)).
Proof.
  intros Hs Hgid Hfind Hsave u gid i Hg Hu Hcreator Hv Hne. subst i.
  pose proof (others_remain g u v Hv Hne) as Hstay.
  pose proof (nonempty_length _ _ Hstay) as Hlen. simpl in Hlen.
  set (st' := set_sockets (alter (del_room (group_room gid)) s)
                (set_groups (insert gid (Group.removeMember g u)) st)).
  assert (Hrun : handle (On s (on_leave_group o data)) st
                 = (Done tt, st',
                    [SaveGroup gid (Group.removeMember g u);
                     Emit (ToRoom (group_room gid)) (GroupUpdate "member_left" gid u);
                     Emit (ToSocket s) (GroupLeft gid (Group.name g))])).
  { unfold_m. rewrite Hs. simpl. rewrite Hgid, Hfind. simpl. fold gid. rewrite Hg. simpl.
    fold u. rewrite (proj2 (isMember_elem_of g u) Hu). simpl.
    rewrite (equals_ne (Group.creator g) u) by done. simpl.
    rewrite Hsave. simpl. rewrite Hlen. done. }
  assert (Hout : s ∉ in_room (group_room gid) st').
  { rewrite in_room_spec. simpl. rewrite lookup_alter_eq, Hs. simpl.
    intros (sock' & [= <-] & Hin). simpl in Hin.
    apply elem_of_difference in Hin as [_ Hin]. apply Hin. by apply elem_of_singleton. }
  unfold next, trace. rewrite Hrun. simpl. split_and!; [| done | done | | done].
  - apply lookup_insert_eq.
  - exists (in_room (group_room gid) st'). split_and!; [| done |].
    + unfold deliveries. unfold_m. rewrite Hs. simpl. rewrite Hgid, Hfind. simpl.
      fold gid. rewrite Hg. simpl. fold u. rewrite (proj2 (isMember_elem_of g u) Hu).
      simpl. rewrite (equals_ne (Group.creator g) u) by done. simpl.
      rewrite Hsave. simpl. rewrite Hlen. simpl. fold st'.
      rewrite decide_True; [done |]. apply elem_of_dom. subst st'. simpl.
      rewrite lookup_alter_eq, Hs. simpl. eauto.
    + intros s0 Hne0. rewrite !in_room_spec. subst st'. simpl.
      by rewrite lookup_alter_ne.
Qed.

Lemma leave_group_member_witness :
  trace joined (On "s1" leave_g1)
  = [SaveGroup "g1" (Group.removeMember (Group.addMember club "a1") "a1");
     Emit (ToRoom (group_room "g1")) (GroupUpdate "member_left" "g1" "a1");
     Emit (ToSocket "s1") (GroupLeft "g1" "club")].
Proof.
  apply (leave_group_member joined "s1"
           (mkSocket alice {[user_room "a1"; group_room "g1"]}) all_ok
           (msg None (Some "g1") None) (Group.addMember club "a1") "b2").
  - vm_compute. reflexivity.
  - reflexivity.
  - reflexivity.
  - reflexivity.
  - vm_compute. reflexivity.
  - simpl. apply elem_of_cons. right. apply elem_of_cons. by left.
  - discriminate.
  - simpl. apply elem_of_cons. by left.
  - discriminate.
Defined.

(** X18: when the only member leaves and the delete call is rejected, the
    group stays in the collection with no members, the socket has left the
    room, [group_deleted] is not broadcast, and the sender is told the leave
    failed. *)
Theorem leave_group_delete_rejected (st : State) (s : string) (sock : Socket)
    (o : Outcomes) (data : Data) (g : Group.t) :
  sockets st !! s = Some sock →
  truthy (groupId data) = true → find_ok o = true → save_ok o = true →
  delete_ok o = false →
  let u := User._id (user sock) in
  let gid := str (groupId data) in
  let i := On s (on_leave_group o data) in
  groups st !! gid = Some g →
  Group.members g = [u] →
  groups (next st i) !! gid = Some (Group.removeMember g u)
  ∧ Group.members (Group.removeMember g u) = []
  ∧ trace st i
    = [SaveGroup gid (Group.removeMember g u);
       Emit (ToSocket s) (Error "Failed to leave group")]
  ∧ s ∉ recipients (next st i) (ToRoom (group_room gid)).
Proof.
  intros Hs Hgid Hfind Hsave Hdel u gid i Hg Hmem. subst i.
  pose proof (removeMember_only g u Hmem) as Hrm.
  assert (Hrun : handle (On s (on_leave_group o data)) st
                 = (Done tt,
                    set_sockets (alter (del_room (group_room gid)) s)
                      (set_groups (insert gid (Group.removeMember g u)) st),
                    [SaveGroup gid (Group.removeMember g u);
                     Emit (ToSocket s) (Error "Failed to leave group")])).
  { unfold_m. rewrite Hs. simpl. rewrite Hgid, Hfind. simpl. fold gid. rewrite Hg. simpl.
    fold u. rewrite (isMember_only g u Hmem), Hsave. simpl.
    simpl in Hrm. rewrite Hrm, Hmem. simpl. rewrite andb_false_r. simpl.
    by rewrite Hdel. }
  unfold next, trace. rewrite Hrun. simpl. split_and!; [| done | done |].
  - apply lookup_insert_eq.
  - rewrite in_room_spec. simpl. rewrite lookup_alter_eq, Hs. simpl.
    intros (sock' & [= <-] & Hin). simpl in Hin.
    apply elem_of_difference in Hin as [_ Hin]. apply Hin. by apply elem_of_singleton.
Qed.

Lemma leave_group_delete_rejected_witness :
  trace with_bob (On "s3" (on_leave_group (mkOutcomes true true true false)
                             (msg None (Some "g1") None)))
  = [SaveGroup "g1" (Group.removeMember club "b2");
     Emit (ToSocket "s3") (Error "Failed to leave group")].
Proof.
  apply (leave_group_delete_rejected with_bob "s3"
           (mkSocket bob {[user_room "b2"; group_room "g1"]})
           (mkOutcomes true true true false) (msg None (Some "g1") None) club);
    reflexivity.
Defined.

(** X19: a leave from somebody who is not a member of the group is answered
    with "You are not a member of this group", to the sender only, and
    changes nothing. *)
Theorem leave_group_non_member (st : State) (s : string) (sock : Socket)
    (o : Outcomes) (data : Data) (g : Group.t) :
  sockets st !! s = Some sock →
  truthy (groupId data) = true → find_ok o = true →
  groups st !! str (groupId data) = Some g →
  Group.isMember g (User._id (user sock)) = false →
  handle (On s (on_leave_group o data)) st
  = (Done tt, st, [Emit (ToSocket s) (Error "You are not a member of this group")]).
Proof.
  intros Hs Hgid Hfind Hg Hnot. unfold_m. rewrite Hs. simpl.
  rewrite Hgid, Hfind. simpl. rewrite Hg. simpl. by rewrite Hnot.
Qed.

Lemma leave_group_non_member_witness :
  handle (On "s1" leave_g1) with_bob
  = (Done tt, with_bob,
     [Emit (ToSocket "s1") (Error "You are not a member of this group")]).
Proof.
  apply (leave_group_non_member with_bob "s1" (mkSocket alice {[user_room "a1"]})
           all_ok (msg None (Some "g1") None) club); reflexivity.
Defined.

(** ** Invariants of the Group collection *)

Lemma addMember_NoDup (g : Group.t) (u : string) :
  NoDup (Group.members g) → NoDup (Group.members (Group.addMember g u)).
Proof.
  intros Hnd. unfold Group.addMember.
  destruct (Group.isMember g u) eqn:E; simpl; [done|].
  apply NoDup_app. split_and!; [done | | apply NoDup_singleton].
  intros x Hx Hxu. apply list_elem_of_singleton in Hxu as ->.
  by apply isMember_false in E.
Qed.

Lemma removeMember_NoDup (g : Group.t) (u : string) :
  NoDup (Group.members g) → NoDup (Group.members (Group.removeMember g u)).
Proof. intros Hnd. simpl. by apply NoDup_filter. Qed.

Lemma groups_unchanged (st : State) (i : Input) :
  writes_groups i = false → groups (next st i) = groups st.
Proof.
  destruct i as [s u | s found | s e]; intros Hw.
  - unfold next. unfold_m. simpl. done.
  - by destruct (groups_found_effect st s found) as (_ & _ & Hg & _).
  - destruct (sockets st !! s) as [sock|] eqn:Hs; [| by rewrite next_not_live].
    events e; try discriminate Hw; on_socket Hs; crunch; done.
Qed.

Lemma members_distinct_step (st : State) (i : Input) :
  members_distinct st → members_distinct (next st i).
Proof.
  intros Hinv. destruct (writes_groups i) eqn:Hw.
  2:{ unfold members_distinct. by rewrite groups_unchanged. }
  destruct i as [s u | s found | s e]; [discriminate | discriminate |].
  destruct (sockets st !! s) as [sock|] eqn:Hs; [| by rewrite next_not_live].
  events e; try discriminate Hw; unfold members_distinct; on_socket Hs; crunch;
    try exact Hinv;
    repeat match goal with
      | H : groups st !! _ = Some ?g |- _ =>
          apply Hinv in H
      end;
    try apply (map_Forall_delete (fun _ g => NoDup (Group.members g)));
    apply (map_Forall_insert_2 (fun _ g => NoDup (Group.members g)));
    try exact Hinv;
    first [by apply addMember_NoDup | by apply removeMember_NoDup].
Qed.

(** X20: handler runs that do not overlap keep the members lists free of
    duplicates: if no stored group lists a member twice, it is still so after
    any sequence of inputs each handled to its end before the next begins. *)
Theorem members_stay_distinct (st : State) (inputs : list Input) :
  members_distinct st → members_distinct (run inputs st).
Proof.
  revert st. induction inputs as [|i inputs IH]; intros st Hinv; [done|].
  simpl. apply IH. by apply members_distinct_step.
Qed.

Lemma members_stay_distinct_witness :
  members_distinct (run [On "s1" join_g1; On "s2" join_g1] with_bob).
Proof.
  apply (members_stay_distinct with_bob).
  intros gid g Hg. change (groups with_bob) with ({["g1" := club]} : gmap string Group.t) in Hg.
  apply lookup_singleton_Some in Hg as [_ <-]. simpl. apply NoDup_singleton.
Defined.

Lemma creator_stays (g : Group.t) (u : string) :
  Group.creator g ∈ Group.members g →
  Group.isMember g u = true →
  Group.equals (Group.creator g) u && (1 <? length (Group.members g))%nat = false →
  (length (Group.members (Group.removeMember g u)) =? 0)%nat = false →
  Group.creator (Group.removeMember g u) ∈ Group.members (Group.removeMember g u).
Proof.
  intros Hc Hu Hguard Hleft. change (Group.creator (Group.removeMember g u)) with (Group.creator g).
  destruct (decide (Group.creator g = u)) as [Heq | Hne]; [| by apply others_remain].
  exfalso. rewrite Heq, equals_refl in Hguard. simpl in Hguard.
  apply isMember_elem_of in Hu. simpl in Hleft.
  destruct (Group.members g) as [|a [|b l]]; [by apply elem_of_nil in Hu | | done].
  apply list_elem_of_singleton in Hu as ->.
  rewrite filter_cons_False in Hleft by (rewrite equals_refl; auto). done.
Qed.

Lemma addMember_creator (g : Group.t) (u : string) :
  Group.creator g ∈ Group.members g →
  Group.creator (Group.addMember g u) ∈ Group.members (Group.addMember g u).
Proof.
  intros Hc. unfold Group.addMember. destruct (Group.isMember g u); simpl; [done|].
  apply elem_of_app. by left.
Qed.

Lemma creators_inside_step (st : State) (i : Input) :
  delete_fulfilled i → creators_inside st → creators_inside (next st i).
Proof.
  intros Hdel Hinv. destruct (writes_groups i) eqn:Hw.
  2:{ unfold creators_inside. by rewrite groups_unchanged. }
  destruct i as [s u | s found | s e]; [discriminate | discriminate |].
  destruct (sockets st !! s) as [sock|] eqn:Hs; [| by rewrite next_not_live].
  events e; try discriminate Hw; simpl in Hdel; unfold creators_inside;
    on_socket Hs; rewrite ?Hdel; crunch; try exact Hinv;
    repeat match goal with
      | H : groups st !! _ = Some ?g |- _ => apply Hinv in H
      end;
    first
      [ rewrite delete_insert_eq;
        by apply (map_Forall_delete (fun _ g => Group.creator g ∈ Group.members g))
      | apply (map_Forall_insert_2 (fun _ g => Group.creator g ∈ Group.members g));
        [| exact Hinv];
        first [by apply addMember_creator | by apply creator_stays] ].
Qed.

(** X21: if every stored group lists its creator as a member, it still does
    after any run of the socket service in which no delete call is rejected:
    a creator only gets out of a group by emptying it, and the emptied group
    is deleted. *)
Theorem creators_stay_inside (st : State) (inputs : list Input) :
  creators_inside st → Forall delete_fulfilled inputs →
  creators_inside (run inputs st).
Proof.
  revert st. induction inputs as [|i inputs IH]; intros st Hinv Hall; [done|].
  apply Forall_cons in Hall as [Hi Hall]. simpl.
  apply IH; [| done]. by apply creators_inside_step.
Qed.

Lemma creators_stay_inside_witness :
  creators_inside (run [On "s1" join_g1; On "s3" leave_g1] with_bob).
Proof.
  apply (creators_stay_inside with_bob).
  - intros gid g Hg.
    change (groups with_bob) with ({["g1" := club]} : gmap string Group.t) in Hg.
    apply lookup_singleton_Some in Hg as [_ <-]. simpl. apply elem_of_cons. by left.
  - repeat (apply Forall_cons; split; [reflexivity |]). apply Forall_nil_2.
Defined.

(** ** The authentication middleware *)

(** X22: the middleware admits a handshake only with a token that verifies
    to the id of a user found in the collection, and that user is the one
    bound to the socket; such a handshake is always admitted.  Every refusal
    is an "Authentication error", a missing token is refused without looking
    at anything else, and a rejected user lookup is reported as an invalid
    token. *)
Theorem authenticate_sound (jwt_verify : string → option string)
    (find_ok : bool) (token : option string) (st : State) :
  (∀ u, authenticate jwt_verify find_ok token st = Accept u
        ↔ truthy token = true ∧ find_ok = true
          ∧ ∃ id, jwt_verify (str token) = Some id ∧ users st !! id = Some u)
  ∧ (∀ m, authenticate jwt_verify find_ok token st = Reject m →
          String.prefix "Authentication error: " m = true
          ∧ (truthy token = false → m = "Authentication error: Token not provided")
          ∧ (truthy token = true → find_ok = false →
             m = "Authentication error: Invalid token")).
Proof.
  unfold authenticate. split.
  - intros u. destruct (truthy token); simpl.
    2:{ split; [discriminate | by intros (H & _)]. }
    destruct (jwt_verify (str token)) as [id|].
    2:{ split; [discriminate | by intros (_ & _ & id & H & _)]. }
    destruct find_ok.
    2:{ split; [discriminate | by intros (_ & H & _)]. }
    destruct (users st !! id) as [u'|] eqn:E.
    + split; [intros [= <-]; eauto 6 |].
      intros (_ & _ & id' & [= <-] & Hu). congruence.
    + split; [discriminate |].
      intros (_ & _ & id' & [= <-] & Hu). congruence.
  - intros m. destruct (truthy token); simpl.
    + destruct (jwt_verify (str token)) as [id|];
        [destruct find_ok; [destruct (users st !! id) |] |];
        intros [= <-]; done.
    + intros [= <-]. done.
Qed.

Lemma authenticate_sound_witness :
  authenticate sample_verify true (Some "tok-a1") db = Accept alice
  ∧ String.prefix "Authentication error: " "Authentication error: Token not provided" = true.
Proof.
  destruct (authenticate_sound sample_verify true (Some "tok-a1") db) as [Hacc _].
  destruct (authenticate_sound sample_verify true None db) as [_ Hrej].
  split.
  - apply Hacc. split_and!; [reflexivity | reflexivity |].
    exists "a1". split; [reflexivity | vm_compute; reflexivity].
  - apply (Hrej "Authentication error: Token not provided"). reflexivity.
Defined.
